(** * Mobil_App: the admin-panel report aggregator and the checkout load test

    A shallow embedding of [admin-panel/components/Reports.tsx] (the order
    fetcher, the four aggregation reducers, the quick-range presets and the
    CSV export) and of the k6 load-test script, followed by the properties
    that the specification states about them.

    Layout: Part I holds the embedding (definitions only), Part II the
    properties that the specification states, Part III further properties
    of the same code. *)

From Stdlib Require Import ZArith List String Ascii Bool Arith Lia.
From Stdlib Require Import Floats Uint63 QArith Qcanon.
From Stdlib Require Import Sorted Permutation OrderedTypeEx DecimalString.
Import ListNotations.

Set Implicit Arguments.
Set Warnings "-inexact-float".
Close Scope Qc_scope.
Close Scope Q_scope.
Open Scope nat_scope.
Open Scope list_scope.

(* ================================================================== *)
(** * Part I. The embedding *)
(* ================================================================== *)

(** ** JavaScript numbers

    Every amount in [Reports.tsx] is a JavaScript [number].  The reducers
    only use [0], [+], [*], [/] and the conversion of an array length, so
    they are written once over the interface [Number] and run on two
    instances: [binary64], the IEEE 754 doubles that the JavaScript engine
    really computes with, and [decimal], exact rationals, which is the
    "monetary amount (decimal)" reading of the data model. *)

Class Number (num : Type) : Type := {
  nzero : num;
  nadd : num -> num -> num;
  nmul : num -> num -> num;
  ndiv : num -> num -> num;
  of_count : nat -> num
}.

(** Doubles.  An array length is below [2^32], so its conversion through
    a 63-bit integer is exact. *)
#[export] Instance binary64 : Number float := {
  nzero := PrimFloat.zero;
  nadd := PrimFloat.add;
  nmul := PrimFloat.mul;
  ndiv := PrimFloat.div;
  of_count n := PrimFloat.of_uint63 (Uint63.of_Z (Z.of_nat n))
}.

#[export] Instance decimal : Number Qc := {
  nzero := Q2Qc 0;
  nadd := Qcplus;
  nmul := Qcmult;
  ndiv := Qcdiv;
  of_count n := Q2Qc (inject_Z (Z.of_nat n))
}.

(** Arithmetic without rounding: addition is associative and commutative
    and [0] is neutral.  [decimal] is exact; [binary64] is not. *)
Class ExactNumber (num : Type) {N : Number num} : Prop := {
  nadd_assoc : forall x y z : num, nadd x (nadd y z) = nadd (nadd x y) z;
  nadd_comm : forall x y : num, nadd x y = nadd y x;
  nadd_zero_l : forall x : num, nadd nzero x = x
}.
Arguments ExactNumber num {N}.

(** *** Doubles without rounding

    Every finite double is a whole multiple of [2^-1074], the smallest
    subnormal.  [exact_value x] is that multiple ([None] for a NaN or an
    infinity), read off the sign, mantissa and exponent of [x]. *)
Definition exact_value (x : float) : option Z :=
  match Prim2SF x with
  | S754_zero _ => Some 0%Z
  | S754_finite s m e =>
      Some ((if s then Z.neg m else Z.pos m) * 2 ^ (e + 1074))%Z
  | _ => None
  end.

Definition value_of (x : float) : Z :=
  match exact_value x with
  | Some z => z
  | None => 0%Z
  end.

(** [x + y] is computed without rounding: both operands and the result are
    finite and the result is the exact sum. *)
Definition adds_exactly (x y : float) : bool :=
  match exact_value x, exact_value y, exact_value (PrimFloat.add x y) with
  | Some a, Some b, Some c => Z.eqb c (a + b)
  | _, _, _ => false
  end.

(** No addition of the left-to-right sum [((acc + x1) + x2) + ...] rounds. *)
Fixpoint sums_exactly (acc : float) (xs : list float) : bool :=
  match xs with
  | [] => true
  | x :: xs' => adds_exactly acc x && sums_exactly (PrimFloat.add acc x) xs'
  end.

Definition Zsum (zs : list Z) : Z := fold_right Z.add 0%Z zs.

(** The whole number that a double is, when it is one below [2^53] in
    magnitude: the numbers that JavaScript prints with all their digits. *)
Definition safe_integer (x : float) : option Z :=
  match Prim2SF x with
  | S754_zero _ => Some 0%Z
  | S754_finite s m e =>
      let sign (z : Z) := if s then (- z)%Z else z in
      if (0 <=? e)%Z
      then if (Z.pos m * 2 ^ e <? 2 ^ 53)%Z
           then Some (sign (Z.pos m * 2 ^ e)%Z)
           else None
      else if (Z.pos m mod 2 ^ (- e) =? 0)%Z
           then Some (sign (Z.pos m / 2 ^ (- e))%Z)
           else None
  | _ => None
  end.

(** ** JavaScript values used by the component *)

(** An optional, nullable property: [cargoSlipPrintedAt?: string | null]. *)
Inductive Nullable (A : Type) : Type :=
| Undefined : Nullable A
| Null : Nullable A
| Value : A -> Nullable A.
Arguments Undefined {A}.
Arguments Null {A}.
Arguments Value {A} _.

(** Truthiness of a string: only the empty string is falsy. *)
Definition truthy_string (s : string) : bool :=
  match s with
  | EmptyString => false
  | String _ _ => true
  end.

(** Truthiness of [string | null | undefined], as tested by [!!x] and
    [x ? a : b]. *)
Definition truthy (x : Nullable string) : bool :=
  match x with
  | Undefined => false
  | Null => false
  | Value s => truthy_string s
  end.

(** Truthiness of a number that is an array length: [n ? a : b]. *)
Definition truthy_count (n : nat) : bool := negb (Nat.eqb n 0).

(** [Array.prototype.join]. *)
Definition join (sep : string) (parts : list string) : string :=
  String.concat sep parts.

Definition line_feed : ascii := ascii_of_nat 10.

Fixpoint has_line_feed (s : string) : bool :=
  match s with
  | EmptyString => false
  | String c s' => Ascii.eqb c line_feed || has_line_feed s'
  end.

(** The lines of a text, as a spreadsheet reads them: the pieces between
    line feeds. *)
Fixpoint split_lines (s : string) : list string :=
  match s with
  | EmptyString => [EmptyString]
  | String c s' =>
      if Ascii.eqb c line_feed then EmptyString :: split_lines s'
      else match split_lines s' with
           | [] => [String c EmptyString]
           | l :: ls => String c l :: ls
           end
  end.

(** The same for any separator: the columns of a line are its pieces
    between semicolons. *)
Fixpoint has_char (sep : ascii) (s : string) : bool :=
  match s with
  | EmptyString => false
  | String c s' => Ascii.eqb c sep || has_char sep s'
  end.

Fixpoint split_on (sep : ascii) (s : string) : list string :=
  match s with
  | EmptyString => [EmptyString]
  | String c s' =>
      if Ascii.eqb c sep then EmptyString :: split_on sep s'
      else match split_on sep s' with
           | [] => [String c EmptyString]
           | l :: ls => String c l :: ls
           end
  end.

(** ** The data model of Reports.tsx *)

Inductive Channel : Set := hepsiburada | trendyol | ticimax | site | other.

Inductive Status : Set :=
  pending | processing | shipped | delivered | cancelled | returned.

Definition Channel_eqb (a b : Channel) : bool :=
  match a, b with
  | hepsiburada, hepsiburada | trendyol, trendyol | ticimax, ticimax
  | site, site | other, other => true
  | _, _ => false
  end.

Definition Status_eqb (a b : Status) : bool :=
  match a, b with
  | pending, pending | processing, processing | shipped, shipped
  | delivered, delivered | cancelled, cancelled | returned, returned => true
  | _, _ => false
  end.

Record OrderRow (num : Type) : Type := {
  id : Z;
  date : string;
  channel : Channel;
  status : Status;
  amount : num;
  customer : string;
  cargoProvider : option string;
  cargoSlipPrintedAt : Nullable string
}.

Definition CHANNEL_LABELS (c : Channel) : string :=
  match c with
  | hepsiburada => "Hepsiburada"
  | trendyol => "Trendyol"
  | ticimax => "Ticimax"
  | site => "Site"
  | other => "Diğer"
  end.

Definition STATUS_LABELS (s : Status) : string :=
  match s with
  | pending => "Beklemede"
  | processing => "İşleniyor"
  | shipped => "Kargoda"
  | delivered => "Teslim Edildi"
  | cancelled => "İptal"
  | returned => "İade"
  end.

Definition channelOrder : list Channel :=
  [hepsiburada; trendyol; ticimax; site; other].

(** The keys of the object literal in [byStatus], in the order in which
    [Object.entries] enumerates them (creation order of string keys). *)
Definition statusKeys : list Status :=
  [pending; processing; shipped; delivered; cancelled; returned].

(** ** Plain JavaScript objects used as string-keyed maps

    [timeSeries] starts from [{}] and indexes it with [o.date].  An own
    property list in creation order is enough to model it, together with
    the two places where a plain object differs from a map: a read falls
    back to [Object.prototype], and enumeration lists integer-like keys
    first, in ascending numeric order. *)

Definition JsObject (V : Type) : Type := list (string * V).

Definition object_prototype_keys : list string :=
  ["constructor"; "__defineGetter__"; "__defineSetter__"; "hasOwnProperty";
   "__lookupGetter__"; "__lookupSetter__"; "isPrototypeOf";
   "propertyIsEnumerable"; "toString"; "valueOf"; "__proto__";
   "toLocaleString"]%string.

Definition inherited (k : string) : bool :=
  existsb (String.eqb k) object_prototype_keys.

Fixpoint own_get {V : Type} (obj : JsObject V) (k : string) : option V :=
  match obj with
  | [] => None
  | (k', v) :: rest => if String.eqb k k' then Some v else own_get rest k
  end.

(** Creating a property appends it to the creation order. *)
Definition own_add {V : Type} (obj : JsObject V) (k : string) (v : V)
  : JsObject V :=
  obj ++ [(k, v)].

(** In-place update of the object stored under an existing key. *)
Fixpoint own_update {V : Type} (obj : JsObject V) (k : string) (f : V -> V)
  : JsObject V :=
  match obj with
  | [] => []
  | (k', v) :: rest =>
      if String.eqb k k' then (k', f v) :: rest
      else (k', v) :: own_update rest k f
  end.

Definition digit_of (c : ascii) : option N :=
  let n := N_of_ascii c in
  if ((48 <=? n) && (n <=? 57))%N then Some (n - 48)%N else None.

Fixpoint parse_digits (s : string) (acc : N) : option N :=
  match s with
  | EmptyString => Some acc
  | String c s' =>
      match digit_of c with
      | Some d => parse_digits s' (10 * acc + d)%N
      | None => None
      end
  end.

(** The array index denoted by a property key, if the key is a canonical
    numeric string below [2^32 - 1]. *)
Definition array_index (k : string) : option N :=
  match k with
  | EmptyString => None
  | String "0" (String _ _) => None
  | String _ _ =>
      match parse_digits k 0 with
      | Some n => if (n <? 4294967295)%N then Some n else None
      | None => None
      end
  end.

(** [Array.prototype.sort] with a comparator: a stable sort, modelled as
    insertion sort ([cmp a b] is negative, zero or positive).  For a
    consistent comparator every stable sort returns the same array. *)
Fixpoint sort_insert {A : Type} (cmp : A -> A -> Z) (x : A) (l : list A)
  : list A :=
  match l with
  | [] => [x]
  | y :: l' => if (cmp x y <=? 0)%Z then x :: y :: l'
               else y :: sort_insert cmp x l'
  end.

Definition sort {A : Type} (cmp : A -> A -> Z) (l : list A) : list A :=
  fold_right (sort_insert cmp) [] l.

Definition index_entries {V : Type} (obj : JsObject V) : list (N * V) :=
  flat_map (fun kv => match array_index (fst kv) with
                      | Some n => [(n, snd kv)]
                      | None => []
                      end) obj.

Definition string_entries {V : Type} (obj : JsObject V) : list (string * V) :=
  filter (fun kv => match array_index (fst kv) with
                    | Some _ => false
                    | None => true
                    end) obj.

(** [Object.values]: integer keys ascending, then creation order. *)
Definition Object_values {V : Type} (obj : JsObject V) : list V :=
  map snd (sort (fun a b => (Z.of_N (fst a) - Z.of_N (fst b))%Z)
                (index_entries obj))
  ++ map snd (string_entries obj).

(** ** The aggregation reducers *)

Record Totals (num : Type) : Type := {
  totalAmount : num;
  orderCount : nat;
  avgBasket : num;
  returnedRate : num;
  onTimeRate : num
}.

Record ChannelBucket (num : Type) : Type := {
  cb_channel : Channel;
  cb_amount : num;
  cb_count : nat
}.

Record StatusSlice : Type := {
  ss_status : Status;
  value : nat
}.

Record DayBucket (num : Type) : Type := {
  db_date : string;
  db_amount : num;
  db_count : nat
}.

Section Reducers.
Context {num : Type} {N : Number num}.

(** [filtered] is the memoised identity on the held orders. *)
Definition filtered (orders : list (OrderRow num)) : list (OrderRow num) :=
  orders.

Definition totals (filtered : list (OrderRow num)) : Totals num :=
  let totalAmount := fold_left (fun s o => nadd s (amount o)) filtered nzero in
  let orderCount := List.length filtered in
  let avgBasket :=
    if truthy_count orderCount then ndiv totalAmount (of_count orderCount)
    else nzero in
  let returns :=
    List.length (filter (fun o => Status_eqb (status o) returned) filtered) in
  let returnedRate :=
    if truthy_count orderCount
    then nmul (ndiv (of_count returns) (of_count orderCount)) (of_count 100)
    else nzero in
  let onTimeCargo :=
    List.length (filter (fun o => truthy (cargoSlipPrintedAt o)) filtered) in
  let onTimeRate :=
    if truthy_count orderCount
    then nmul (ndiv (of_count onTimeCargo) (of_count orderCount)) (of_count 100)
    else nzero in
  {| totalAmount := totalAmount; orderCount := orderCount;
     avgBasket := avgBasket; returnedRate := returnedRate;
     onTimeRate := onTimeRate |}.

(** The [Record<Channel, ...>] literal of [byChannel]: one bucket per key. *)
Definition channel_map_init (c : Channel) : ChannelBucket num :=
  {| cb_channel := c; cb_amount := nzero; cb_count := 0 |}.

(** [map[o.channel].amount += o.amount; map[o.channel].count += 1]. *)
Definition channel_visit (map : Channel -> ChannelBucket num)
  (o : OrderRow num) : Channel -> ChannelBucket num :=
  fun c =>
    if Channel_eqb c (channel o)
    then {| cb_channel := cb_channel (map c);
            cb_amount := nadd (cb_amount (map c)) (amount o);
            cb_count := cb_count (map c) + 1 |}
    else map c.

Definition byChannel (filtered : list (OrderRow num))
  : list (ChannelBucket num) :=
  let map := fold_left channel_visit filtered channel_map_init in
  List.map (fun c => map c) channelOrder.

(** [map[o.status] += 1] on [Record<Status, number>]. *)
Definition status_visit (map : Status -> nat) (o : OrderRow num)
  : Status -> nat :=
  fun s => if Status_eqb s (status o) then map s + 1 else map s.

Definition byStatus (filtered : list (OrderRow num)) : list StatusSlice :=
  let map := fold_left status_visit filtered (fun _ => 0) in
  let data :=
    List.map (fun k => {| ss_status := k; value := map k |}) statusKeys in
  let total := fold_left (fun s d => s + value d) data 0 in
  if Nat.eqb total 0 then [{| ss_status := pending; value := 1 |}]
  else data.

(** The body of the [forEach] in [timeSeries].  [bucket[o.date]] is truthy
    when the key is an own property (a bucket object) and also when it
    names a member of [Object.prototype]; in the second case no bucket is
    created and the two [+=] land on that built-in, not on [bucket]. *)
Definition series_visit (bucket : JsObject (DayBucket num))
  (o : OrderRow num) : JsObject (DayBucket num) :=
  let found :=
    match own_get bucket (date o) with
    | Some _ => true
    | None => inherited (date o)
    end in
  let bucket1 :=
    if negb found
    then own_add bucket (date o)
           {| db_date := date o; db_amount := nzero; db_count := 0 |}
    else bucket in
  own_update bucket1 (date o)
    (fun b => {| db_date := db_date b;
                 db_amount := nadd (db_amount b) (amount o);
                 db_count := db_count b + 1 |}).

Section TimeSeries.
(** [String.prototype.localeCompare] is the host's collation. *)
Variable localeCompare : string -> string -> Z.

Definition timeSeries (filtered : list (OrderRow num))
  : list (DayBucket num) :=
  let bucket := fold_left series_visit filtered [] in
  sort (fun a b => localeCompare (db_date a) (db_date b))
       (Object_values bucket).

End TimeSeries.

Section CsvExport.
(** [Number.prototype.toFixed] is the host's number formatting. *)
Variable toFixed : num -> nat -> string.

Definition csv_headers : list string :=
  ["Tarih"; "Kanal"; "Durum"; "Tutar"; "Müşteri"; "Kargo Fişi"]%string.

Definition csv_row (o : OrderRow num) : list string :=
  [date o;
   CHANNEL_LABELS (channel o);
   STATUS_LABELS (status o);
   toFixed (amount o) 2;
   customer o;
   if truthy (cargoSlipPrintedAt o) then "Evet" else "Hayır"]%string.

(** The three fields of a row that come from the data hold no [sep]. *)
Definition fields_free_of (sep : ascii) (o : OrderRow num) : Prop :=
  has_char sep (date o) = false
  /\ has_char sep (toFixed (amount o) 2) = false
  /\ has_char sep (customer o) = false.

(** The array [[headers, ...rows]] that [exportCSV] serialises. *)
Definition csv_table (filtered : list (OrderRow num)) : list (list string) :=
  csv_headers :: List.map csv_row filtered.

(** The text handed to the [Blob]. *)
Definition exportCSV (filtered : list (OrderRow num)) : string :=
  join (String line_feed EmptyString)
       (List.map (fun r => join ";" r) (csv_table filtered)).

End CsvExport.

End Reducers.

(** ** Sums, as the checks of the specification take them *)

(** [xs.reduce((s, x) => s + x, 0)]. *)
Definition sum_amounts {num : Type} {N : Number num} (xs : list num) : num :=
  fold_left nadd xs nzero.

(** The specification's wording of the cargo-slip count: orders whose
    print timestamp is present, that is, neither [null] nor missing. *)
Definition nonnull_slip_count {num : Type} (l : list (OrderRow num)) : nat :=
  List.length (filter (fun o => match cargoSlipPrintedAt o with
                                | Value _ => true
                                | Null | Undefined => false
                                end) l).

(** ** Sample orders *)

Definition sample_order {num : Type} (i : Z) (d : string) (c : Channel)
  (s : Status) (a : num) (slip : Nullable string) : OrderRow num :=
  {| id := i; date := d; channel := c; status := s; amount := a;
     customer := "Ayşe Yılmaz"; cargoProvider := None;
     cargoSlipPrintedAt := slip |}.

(** Three orders whose amounts 0.1, 0.2 and 2.2 are doubles. *)
Definition rounding_orders : list (OrderRow float) :=
  [sample_order 1 "2024-03-01" site delivered 0.1%float Null;
   sample_order 2 "2024-03-02" other delivered 0.2%float Null;
   sample_order 3 "2024-03-01" site delivered 2.2%float Null].

(** The same three orders with exact decimal amounts. *)
Definition decimal_orders : list (OrderRow Qc) :=
  [sample_order 1 "2024-03-01" site delivered (Q2Qc (1 # 10)) Null;
   sample_order 2 "2024-03-02" other delivered (Q2Qc (2 # 10)) Null;
   sample_order 3 "2024-03-01" site delivered (Q2Qc (22 # 10)) Null].

(** Three orders whose amounts 0.5, 0.25 and 2 add without rounding. *)
Definition unrounded_orders : list (OrderRow float) :=
  [sample_order 1 "2024-03-01" site delivered 0.5%float Null;
   sample_order 2 "2024-03-02" other delivered 0.25%float Null;
   sample_order 3 "2024-03-01" site delivered 2%float Null].

(** One order whose customer name holds a line feed, and one whose
    customer name holds a semicolon. *)
Definition two_line_customer : list (OrderRow Qc) :=
  [{| id := 1; date := "2024-03-01"; channel := site; status := delivered;
      amount := Q2Qc (1 # 10);
      customer := ("Ayşe" ++ String line_feed "Yılmaz")%string;
      cargoProvider := None; cargoSlipPrintedAt := Null |}].

Definition semicolon_customer : list (OrderRow Qc) :=
  [{| id := 1; date := "2024-03-01"; channel := site; status := delivered;
      amount := Q2Qc (1 # 10); customer := "Yılmaz; Ayşe";
      cargoProvider := None; cargoSlipPrintedAt := Null |}].

(** One order whose print timestamp is the empty string. *)
Definition blank_slip_orders : list (OrderRow float) :=
  [sample_order 7 "2024-03-01" site shipped 10%float (Value EmptyString)].

(** ** Calendar-day strings

    The data model gives [date] as a calendar day: ten characters,
    [YYYY-MM-DD]. *)

Definition is_digit (c : ascii) : bool :=
  match digit_of c with
  | Some _ => true
  | None => false
  end.

Definition iso_date (s : string) : bool :=
  match s with
  | String y1 (String y2 (String y3 (String y4 (String h1
    (String m1 (String m2 (String h2
    (String d1 (String d2 EmptyString))))))))) =>
      is_digit y1 && is_digit y2 && is_digit y3 && is_digit y4
      && Ascii.eqb h1 "-"
      && is_digit m1 && is_digit m2
      && Ascii.eqb h2 "-"
      && is_digit d1 && is_digit d2
  | _ => false
  end.

Definition iso_dated {num : Type} (l : list (OrderRow num)) : Prop :=
  Forall (fun o => iso_date (date o) = true) l.

(** What the reducers rely on from the host's collation: on calendar-day
    strings it orders like the code-unit comparison.  (Digits collate in
    numeric order and the hyphens sit at the same places.) *)
Definition collates_iso (localeCompare : string -> string -> Z) : Prop :=
  forall a b : string,
    iso_date a = true -> iso_date b = true ->
    (localeCompare a b ?= 0)%Z = (a ?= b)%string.

(** A collation for running examples: code-unit order. *)
Definition code_unit_compare (a b : string) : Z :=
  match (a ?= b)%string with
  | Lt => (-1)%Z
  | Eq => 0%Z
  | Gt => 1%Z
  end.

(** The orders of one day, in list order. *)
Definition orders_of_day {num : Type} (d : string) (l : list (OrderRow num))
  : list (OrderRow num) :=
  filter (fun o => String.eqb (date o) d) l.

(** What [timeSeries] holds for one day once all orders are visited: no
    bucket for a day without orders (or for a key that [Object.prototype]
    answers), otherwise the day's amounts added in list order and the
    number of its orders. *)
Definition day_bucket {num : Type} {N : Number num} (l : list (OrderRow num))
  (d : string) : option (DayBucket num) :=
  if inherited d then None
  else match orders_of_day d l with
       | [] => None
       | day => Some {| db_date := d;
                        db_amount := fold_left nadd (map (@amount num) day) nzero;
                        db_count := List.length day |}
       end.

(** ** The order fetcher

    [fetchOrders] is the body of the effect that runs on every filter
    change.  Its React setters and its [try]/[catch]/[finally] are
    modelled by a small monad: a computation reads and writes the
    component's view, logs every setter call, and completes normally or by
    throwing. *)

Module Fetcher.

(** What a [catch (err)] clause receives: an [Error] with its message, or
    some other thrown value ([err instanceof Error] is false). *)
Inductive Thrown : Type :=
| ErrorObject (message : string)
| OtherValue.

Section Fetch.
Context {num : Type}.

(** The state the component holds. *)
Record View : Type := {
  orders : list (OrderRow num);
  loading : bool;
  error : option string
}.

Inductive Call : Type :=
| SetLoading (b : bool)
| SetError (e : option string)
| SetOrders (l : list (OrderRow num))
| ConsoleError (e : Thrown).

Inductive Completion (A : Type) : Type :=
| Normal (a : A)
| Throw (e : Thrown).
Arguments Normal {A} a.
Arguments Throw {A} e.

Definition Eff (A : Type) : Type := View -> Completion A * View * list Call.

Definition ret {A : Type} (a : A) : Eff A := fun v => (Normal a, v, []).

Definition bind {A B : Type} (m : Eff A) (k : A -> Eff B) : Eff B :=
  fun v =>
    match m v with
    | (Normal a, v1, c1) =>
        match k a v1 with
        | (r, v2, c2) => (r, v2, c1 ++ c2)
        end
    | (Throw e, v1, c1) => (Throw e, v1, c1)
    end.

Definition throw {A : Type} (e : Thrown) : Eff A := fun v => (Throw e, v, []).

(** [try { body } catch (err) { handler }]. *)
Definition try_catch {A : Type} (body : Eff A) (handler : Thrown -> Eff A)
  : Eff A :=
  fun v =>
    match body v with
    | (Normal a, v1, c1) => (Normal a, v1, c1)
    | (Throw e, v1, c1) =>
        match handler e v1 with
        | (r, v2, c2) => (r, v2, c1 ++ c2)
        end
    end.

(** [try { body } finally { cleanup }]: the cleanup always runs; its own
    throw replaces the completion of the body. *)
Definition try_finally {A : Type} (body : Eff A) (cleanup : Eff unit)
  : Eff A :=
  fun v =>
    match body v with
    | (r, v1, c1) =>
        match cleanup v1 with
        | (Normal _, v2, c2) => (r, v2, c1 ++ c2)
        | (Throw e, v2, c2) => (Throw e, v2, c1 ++ c2)
        end
    end.

Definition setLoading (b : bool) : Eff unit :=
  fun v => (Normal tt,
            {| orders := orders v; loading := b; error := error v |},
            [SetLoading b]).

Definition setError (e : option string) : Eff unit :=
  fun v => (Normal tt,
            {| orders := orders v; loading := loading v; error := e |},
            [SetError e]).

Definition setOrders (l : list (OrderRow num)) : Eff unit :=
  fun v => (Normal tt,
            {| orders := l; loading := loading v; error := error v |},
            [SetOrders l]).

Definition console_error (e : Thrown) : Eff unit :=
  fun v => (Normal tt, v, [ConsoleError e]).

(** The JSON body [{success, data, message?}] of the reporting endpoint:
    [success] is the truthiness of [result.success]. *)
Record ApiResult : Type := {
  success : bool;
  data : list (OrderRow num);
  message : option string
}.

(** [await response.json()]: the body does not parse, or it parses to
    [null], or it parses to an object. *)
Inductive JsonOutcome : Type :=
| JsonRejects (e : Thrown)
| JsonNull
| JsonObject (r : ApiResult).

(** [await fetch(url, init)]: a transport error rejects; otherwise a
    response arrives with its [ok] flag and its body. *)
Inductive FetchOutcome : Type :=
| Rejects (e : Thrown)
| Responds (ok : bool) (body : JsonOutcome).

Definition await_fetch (reply : FetchOutcome) : Eff (bool * JsonOutcome) :=
  match reply with
  | Rejects e => throw e
  | Responds ok body => ret (ok, body)
  end.

(** Reading [result.success]: a [TypeError] when [result] is [null]. *)
Definition await_json (body : JsonOutcome) : Eff ApiResult :=
  match body with
  | JsonRejects e => throw e
  | JsonNull =>
      throw (ErrorObject
               "Cannot read properties of null (reading 'success')"%string)
  | JsonObject r => ret r
  end.

(** [result.message || 'Failed to fetch reports']. *)
Definition message_or_default (m : option string) : string :=
  match m with
  | Some s => if truthy_string s then s else "Failed to fetch reports"%string
  | None => "Failed to fetch reports"%string
  end.

Notation "x <- m ;; k" := (bind m (fun x => k))
  (at level 61, m at next level, right associativity).
Notation "m ;;; k" := (bind m (fun _ => k))
  (at level 61, right associativity).

Definition fetchOrders (reply : FetchOutcome) : Eff unit :=
  setLoading true ;;;
  setError None ;;;
  try_finally
    (try_catch
       (response <- await_fetch reply ;;
        (if negb (fst response)
         then throw (ErrorObject "Failed to fetch reports data"%string)
         else ret tt) ;;;
        result <- await_json (snd response) ;;
        if success result
        then setOrders (data result)
        else throw (ErrorObject (message_or_default (message result))))
       (fun err =>
          console_error err ;;;
          setError (Some match err with
                         | ErrorObject m => m
                         | OtherValue => "Failed to fetch reports"%string
                         end)))
    (setLoading false).

(** The fetch failed: a transport error, a non-ok response, a body that
    cannot be used, or a success flag that is false. *)
Definition failed (reply : FetchOutcome) : bool :=
  match reply with
  | Rejects _ => true
  | Responds ok body =>
      negb ok || match body with
                 | JsonObject r => negb (success r)
                 | JsonRejects _ | JsonNull => true
                 end
  end.

Definition is_error_banner (c : Call) : bool :=
  match c with
  | SetError (Some _) => true
  | _ => false
  end.

Definition is_SetOrders (c : Call) : bool :=
  match c with
  | SetOrders _ => true
  | _ => false
  end.

(** The banner, [{error && (<div ...>{error}</div>)}]: the message is
    rendered unless [error] is [null] or the empty string. *)
Definition banner (v : View) : option string :=
  match error v with
  | Some m => if truthy_string m then Some m else None
  | None => None
  end.

(** The message that each kind of failure is to leave, written out case
    by case for the statements about [fetchOrders]: the thrown error's own
    message, and the three texts that the component words itself. *)
Definition thrown_text (e : Thrown) : string :=
  match e with
  | ErrorObject m => m
  | OtherValue => "Failed to fetch reports"%string
  end.

Definition failure_text (reply : FetchOutcome) : string :=
  match reply with
  | Rejects e => thrown_text e
  | Responds false _ => "Failed to fetch reports data"%string
  | Responds true (JsonRejects e) => thrown_text e
  | Responds true JsonNull =>
      "Cannot read properties of null (reading 'success')"%string
  | Responds true (JsonObject r) =>
      match message r with
      | Some (String c m) => String c m
      | Some EmptyString | None => "Failed to fetch reports"%string
      end
  end.

(** The failure is a thrown [Error] whose message is empty. *)
Definition throws_empty_message (reply : FetchOutcome) : bool :=
  match reply with
  | Rejects (ErrorObject EmptyString) => true
  | Responds true (JsonRejects (ErrorObject EmptyString)) => true
  | _ => false
  end.

End Fetch.

Arguments View num : clear implicits.
Arguments Call num : clear implicits.
Arguments FetchOutcome num : clear implicits.
Arguments JsonOutcome num : clear implicits.
Arguments ApiResult num : clear implicits.

End Fetcher.

(** ** JavaScript dates and the quick-range presets

    A [Date] is its time value: milliseconds since the epoch, in UTC.  The
    functions below follow the definitions of the language specification.
    The local time zone gives the offset in force (milliseconds east of
    UTC) at each instant and for each local time; a zone without
    daylight-saving changes is one fixed offset. *)

(** A time zone: [offset_at t] is the offset in force at the instant [t],
    [offset_of_local tl] the offset by which the local time value [tl] is
    read back (the host's choice where a change of offset skips or repeats
    local times). *)
Record Zone : Type := {
  offset_at : Z -> Z;
  offset_of_local : Z -> Z
}.

(** A zone whose offset never changes; a number stands for such a zone. *)
Definition fixed_zone (tza : Z) : Zone :=
  {| offset_at := fun _ => tza; offset_of_local := fun _ => tza |}.
Coercion fixed_zone : Z >-> Zone.

Module JsDate.
Local Open Scope Z_scope.

Definition msPerDay : Z := 86400000.
Definition msPerHour : Z := 3600000.
Definition msPerMinute : Z := 60000.
Definition msPerSecond : Z := 1000.

Definition Day (t : Z) : Z := t / msPerDay.
Definition TimeWithinDay (t : Z) : Z := t mod msPerDay.

Definition DaysInYear (y : Z) : Z :=
  if (y mod 4 =? 0) && (negb (y mod 100 =? 0) || (y mod 400 =? 0))
  then 366 else 365.

Definition DayFromYear (y : Z) : Z :=
  365 * (y - 1970) + (y - 1969) / 4 - (y - 1901) / 100 + (y - 1601) / 400.

(** The largest [y] whose first day is not after [t]: an estimate from
    the mean year length, off by one year at most, then corrected. *)
Definition YearFromTime (t : Z) : Z :=
  let d := Day t in
  let y0 := 1970 + (d * 400) / 146097 in
  if DayFromYear (y0 + 1) <=? d then y0 + 1
  else if DayFromYear y0 <=? d then y0
  else y0 - 1.

Definition leap_days (y : Z) : Z := DaysInYear y - 365.

Definition DayWithinYear (t : Z) : Z := Day t - DayFromYear (YearFromTime t).

(** The day within the year on which month [m] (0 to 11) starts. *)
Definition month_start (leap : Z) (m : Z) : Z :=
  match m with
  | 0 => 0
  | 1 => 31
  | 2 => 59 + leap
  | 3 => 90 + leap
  | 4 => 120 + leap
  | 5 => 151 + leap
  | 6 => 181 + leap
  | 7 => 212 + leap
  | 8 => 243 + leap
  | 9 => 273 + leap
  | 10 => 304 + leap
  | _ => 334 + leap
  end.

Definition MonthFromTime (t : Z) : Z :=
  let d := DayWithinYear t in
  let leap := leap_days (YearFromTime t) in
  if d <? 31 then 0
  else if d <? 59 + leap then 1
  else if d <? 90 + leap then 2
  else if d <? 120 + leap then 3
  else if d <? 151 + leap then 4
  else if d <? 181 + leap then 5
  else if d <? 212 + leap then 6
  else if d <? 243 + leap then 7
  else if d <? 273 + leap then 8
  else if d <? 304 + leap then 9
  else if d <? 334 + leap then 10
  else 11.

Definition DateFromTime (t : Z) : Z :=
  DayWithinYear t
  - month_start (leap_days (YearFromTime t)) (MonthFromTime t) + 1.

Definition HourFromTime (t : Z) : Z := (t / msPerHour) mod 24.
Definition MinFromTime (t : Z) : Z := (t / msPerMinute) mod 60.
Definition SecFromTime (t : Z) : Z := (t / msPerSecond) mod 60.
Definition msFromTime (t : Z) : Z := t mod msPerSecond.

(** [MakeDay(year, month, date)]: the day number of the first of the
    month, plus [date - 1]. *)
Definition MakeDay (year month date : Z) : Z :=
  let ym := year + month / 12 in
  let mn := month mod 12 in
  DayFromYear ym + month_start (leap_days ym) mn + date - 1.

Definition MakeTime (hour min sec ms : Z) : Z :=
  hour * msPerHour + min * msPerMinute + sec * msPerSecond + ms.

Definition MakeDate (day time : Z) : Z := day * msPerDay + time.

Section InZone.
Variable zone : Zone.

Definition LocalTime (t : Z) : Z := t + offset_at zone t.
Definition UTC (t : Z) : Z := t - offset_of_local zone t.

Definition getFullYear (t : Z) : Z := YearFromTime (LocalTime t).
Definition getMonth (t : Z) : Z := MonthFromTime (LocalTime t).
Definition getDate (t : Z) : Z := DateFromTime (LocalTime t).

(** [d.setDate(dt)]: the new time value of [d]. *)
Definition setDate (t dt : Z) : Z :=
  let lt := LocalTime t in
  UTC (MakeDate (MakeDay (YearFromTime lt) (MonthFromTime lt) dt)
                (TimeWithinDay lt)).

(** [new Date(year, month, date)]: local midnight of that day.  Years 0
    to 99 stand for 1900 to 1999. *)
Definition new_Date_ymd (year month date : Z) : Z :=
  let yr := if (0 <=? year) && (year <=? 99) then 1900 + year else year in
  UTC (MakeDate (MakeDay yr month date) (MakeTime 0 0 0 0)).

End InZone.

Definition digit (n : Z) : ascii := ascii_of_N (Z.to_N (48 + n mod 10)).

Definition pad2 (n : Z) : string :=
  String (digit (n / 10)) (String (digit n) EmptyString).

Definition pad3 (n : Z) : string := String (digit (n / 100)) (pad2 n).

Definition pad4 (n : Z) : string := String (digit (n / 1000)) (pad3 n).

Definition pad6 (n : Z) : string :=
  String (digit (n / 100000)) (String (digit (n / 10000)) (pad4 n)).

(** [toISOString]: four digits for the years 0 to 9999, otherwise a sign
    and six digits. *)
Definition year_string (y : Z) : string :=
  if (0 <=? y) && (y <=? 9999) then pad4 y
  else if y <? 0 then String "-" (pad6 (- y))
  else String "+" (pad6 y).

Definition toISOString (t : Z) : string :=
  let year := year_string (YearFromTime t) in
  let month := pad2 (MonthFromTime t + 1) in
  let date := pad2 (DateFromTime t) in
  let hour := pad2 (HourFromTime t) in
  let min := pad2 (MinFromTime t) in
  let sec := pad2 (SecFromTime t) in
  let ms := pad3 (msFromTime t) in
  (year ++ "-" ++ month ++ "-" ++ date
   ++ "T" ++ hour ++ ":" ++ min ++ ":" ++ sec ++ "." ++ ms ++ "Z")%string.

(** [s.slice(0, 10)]. *)
Definition slice_0_10 (s : string) : string := String.substring 0 10 s.

(** The UTC calendar day of an instant, as [toISOString().slice(0, 10)]
    prints it. *)
Definition iso_day (t : Z) : string := slice_0_10 (toISOString t).

End JsDate.

(** The filter state that the presets write. *)
Record Range : Type := {
  quickRange : string;
  startDate : string;
  endDate : string
}.

Definition setQuickRange (id : string) (r : Range) : Range :=
  {| quickRange := id; startDate := startDate r; endDate := endDate r |}.

Definition setStartDate (d : string) (r : Range) : Range :=
  {| quickRange := quickRange r; startDate := d; endDate := endDate r |}.

Definition setEndDate (d : string) (r : Range) : Range :=
  {| quickRange := quickRange r; startDate := startDate r; endDate := d |}.

(** [getInitialDates()], run at the instant [now] in the zone [zone]: the
    pair [{start, end}]. *)
Definition getInitialDates (zone : Zone) (now : Z) : string * string :=
  let today := now in
  let start := JsDate.setDate zone today (JsDate.getDate zone today - 6) in
  (JsDate.slice_0_10 (JsDate.toISOString start),
   JsDate.slice_0_10 (JsDate.toISOString today)).

(** [resetQuickRange(id)], run at the instant [now] in the zone [zone]. *)
Definition resetQuickRange (zone : Zone) (now : Z) (id : string)
  (r : Range) : Range :=
  let r := setQuickRange id r in
  let today := now in
  if String.eqb id "7d" then
    let start := JsDate.setDate zone today (JsDate.getDate zone today - 6) in
    setEndDate (JsDate.slice_0_10 (JsDate.toISOString today))
      (setStartDate (JsDate.slice_0_10 (JsDate.toISOString start)) r)
  else if String.eqb id "30d" then
    let start := JsDate.setDate zone today (JsDate.getDate zone today - 29) in
    setEndDate (JsDate.slice_0_10 (JsDate.toISOString today))
      (setStartDate (JsDate.slice_0_10 (JsDate.toISOString start)) r)
  else if String.eqb id "thisMonth" then
    let start := JsDate.new_Date_ymd zone (JsDate.getFullYear zone today)
                   (JsDate.getMonth zone today) 1 in
    setEndDate (JsDate.slice_0_10 (JsDate.toISOString today))
      (setStartDate (JsDate.slice_0_10 (JsDate.toISOString start)) r)
  else r.

(** The zone of Europe/Istanbul: three hours east of UTC, all year. *)
Definition istanbul : Z := (3 * JsDate.msPerHour)%Z.

(** 2024-03-15 12:00 in Istanbul, that is 09:00 UTC. *)
Definition mid_march_noon : Z := 1710493200000%Z.

(** America/New_York around the start of daylight saving time in 2024:
    five hours west of UTC until 2024-03-10 07:00 UTC, four hours west
    from then on.  Local times before 03:00 of that day are read back with
    the earlier offset. *)
Definition new_york_2024 : Zone :=
  {| offset_at := fun t =>
       if (t <? 1710054000000)%Z then (- 5 * JsDate.msPerHour)%Z
       else (- 4 * JsDate.msPerHour)%Z;
     offset_of_local := fun tl =>
       if (tl <? 1710039600000)%Z then (- 5 * JsDate.msPerHour)%Z
       else (- 4 * JsDate.msPerHour)%Z |}.

(** 2024-03-12 19:30 in New York, that is 23:30 UTC. *)
Definition march_12_evening : Z := 1710286200000%Z.

Definition initial_range : Range :=
  {| quickRange := "7d"; startDate := "2024-03-09"; endDate := "2024-03-15" |}.

(** ** The load-test script

    One iteration of the k6 script for one virtual user.  k6's [http]
    calls are synchronous; what the script does to the outside is the
    list of requests it sends, the checks it records and its sleep.  The
    network is a function from the position of a request in the iteration
    and the request itself to what k6 hands back. *)

Module LoadTest.
Local Open Scope string_scope.

(** The values a JSON selector yields: [undefined] for a missing path,
    else what the JSON document holds there. *)
#[warnings="-register-all"]
Inductive Json : Type :=
| JUndefined
| JNull
| JBool (b : bool)
| JNumber (x : float)
| JString (s : string)
| JArray (items : list Json)
| JObject (members : list (string * Json)).

Definition decimal (z : Z) : string := NilZero.string_of_int (Z.to_int z).

(** What the script takes from its host: the formatting of a number that
    is not a whole number below [2^53] (a fraction, a large number, [NaN]
    or an infinity). *)
Class Host : Type := { Number_toString : float -> string }.

(** A host for running examples, in which no such number occurs. *)
Definition sample_host : Host := {| Number_toString := fun _ => "NaN" |}.

Section Values.
Context {host : Host}.

(** A number as text: whole numbers below [2^53] print all their
    digits. *)
Definition number_text (x : float) : string :=
  match safe_integer x with
  | Some z => decimal z
  | None => Number_toString x
  end.

(** The string a value becomes inside a template literal. *)
Fixpoint ToString (v : Json) : string :=
  match v with
  | JUndefined => "undefined"
  | JNull => "null"
  | JBool true => "true"
  | JBool false => "false"
  | JNumber x => number_text x
  | JString s => s
  | JArray items =>
      join "," (map (fun item => match item with
                                 | JUndefined | JNull => EmptyString
                                 | _ => ToString item
                                 end) items)
  | JObject _ => "[object Object]"
  end.

End Values.

Definition quote_mark : ascii := ascii_of_nat 34.
Definition backslash : ascii := ascii_of_nat 92.

Definition hex_digit (n : N) : ascii :=
  if (n <? 10)%N then ascii_of_N (48 + n) else ascii_of_N (87 + n).

Definition escaped (c : ascii) : string :=
  let n := N_of_ascii c in
  if (n =? 34)%N then String backslash (String quote_mark EmptyString)
  else if (n =? 92)%N then String backslash (String backslash EmptyString)
  else if (n =? 8)%N then String backslash "b"
  else if (n =? 9)%N then String backslash "t"
  else if (n =? 10)%N then String backslash "n"
  else if (n =? 12)%N then String backslash "f"
  else if (n =? 13)%N then String backslash "r"
  else if (n <? 32)%N
       then String backslash
              (String "u" (String "0" (String "0"
                 (String (hex_digit (n / 16)) (String (hex_digit (n mod 16))
                    EmptyString)))))
  else String c EmptyString.

Fixpoint escape_all (s : string) : string :=
  match s with
  | EmptyString => EmptyString
  | String c s' => (escaped c ++ escape_all s')%string
  end.

Definition quoted (s : string) : string :=
  String quote_mark (escape_all s ++ String quote_mark EmptyString)%string.

Section Stringify.
Context {host : Host}.

(** [JSON.stringify] of a value; [undefined] has no text: as a property
    it is left out, in an array it is written [null]. *)
Fixpoint stringify_value (v : Json) : option string :=
  match v with
  | JUndefined => None
  | JNull => Some "null"
  | JBool true => Some "true"
  | JBool false => Some "false"
  | JNumber x => Some (if PrimFloat.is_finite x then number_text x else "null")
  | JString s => Some (quoted s)
  | JArray items =>
      Some ("[" ++ join "," (map (fun item =>
                                    match stringify_value item with
                                    | Some text => text
                                    | None => "null"
                                    end) items) ++ "]")
  | JObject members =>
      Some ("{" ++ join "," (flat_map (fun kv =>
                                match stringify_value (snd kv) with
                                | Some text => [quoted (fst kv) ++ ":" ++ text]
                                | None => []
                                end) members) ++ "}")
  end.

(** [JSON.stringify] of an object literal. *)
Definition JSON_stringify (fields : list (string * Json)) : string :=
  match stringify_value (JObject fields) with
  | Some text => text
  | None => "undefined"
  end.

End Stringify.

Inductive Method : Set := GET | POST.

Inductive Body : Type :=
| NoBody
| Form (fields : list (string * string))
| Text (payload : string).

Record Request : Type := {
  method : Method;
  url : string;
  body : Body;
  headers : list (string * string)
}.

(** A response that arrived: its status and, for each selector, what
    [json(selector)] finds in its body ([undefined] when the body is not
    JSON or the path is absent). *)
Record HttpResponse : Type := {
  status : Z;
  select : string -> Json
}.

(** What [http.get] and [http.post] return: a response, or the
    placeholder k6 builds when the request failed before any response
    (status 0 and a null body). *)
Inductive Reply : Type :=
| Received (r : HttpResponse)
| RequestFailed.

Definition reply_status (r : Reply) : Z :=
  match r with
  | Received h => status h
  | RequestFailed => 0%Z
  end.

Record World : Type := {
  sent : list Request;
  checks : list (string * bool);
  slept : list Z
}.

Definition idle : World := {| sent := []; checks := []; slept := [] |}.

Inductive Outcome (A : Type) : Type :=
| Done (a : A)
| Exception (message : string).
Arguments Done {A} a.
Arguments Exception {A} message.

Definition Script (A : Type) : Type := World -> Outcome A * World.

Definition ret {A : Type} (a : A) : Script A := fun w => (Done a, w).

Definition bind {A B : Type} (m : Script A) (k : A -> Script B) : Script B :=
  fun w =>
    match m w with
    | (Done a, w1) => k a w1
    | (Exception e, w1) => (Exception e, w1)
    end.

Definition throw {A : Type} (e : string) : Script A :=
  fun w => (Exception e, w).

Notation "x <- m ;; k" := (bind m (fun x => k))
  (at level 61, m at next level, right associativity).
Notation "m ;;; k" := (bind m (fun _ => k))
  (at level 61, right associativity).

Definition BASE_URL : string := "https://api.huglutekstil.com/api".
Definition API_KEY : string :=
  "huglu_1f3a9b6c2e8d4f0a7b1c3d5e9f2468ab1c2d3e4f5a6b7c8d9e0f1a2b3c4d5e6f".

Section Iteration.
Context {host : Host}.
Variable network : nat -> Request -> Reply.

Definition http_request (rq : Request) : Script Reply :=
  fun w =>
    (Done (network (List.length (sent w)) rq),
     {| sent := sent w ++ [rq]; checks := checks w; slept := slept w |}).

Definition http_post (u : string) (b : Body) (h : list (string * string))
  : Script Reply :=
  http_request {| method := POST; url := u; body := b; headers := h |}.

Definition http_get (u : string) (h : list (string * string)) : Script Reply :=
  http_request {| method := GET; url := u; body := NoBody; headers := h |}.

(** [check(res, {name: predicate})] records the verdict and goes on. *)
Definition check (res : Reply) (name : string) (predicate : Reply -> bool)
  : Script bool :=
  fun w =>
    (Done (predicate res),
     {| sent := sent w; checks := checks w ++ [(name, predicate res)];
        slept := slept w |}).

(** [res.json(selector)] throws when the body is null. *)
Definition json (res : Reply) (selector : string) : Script Json :=
  match res with
  | Received h => ret (select h selector)
  | RequestFailed =>
      throw ("the body is null so we can't transform it to JSON - "
             ++ "this likely was because of a request error getting the response")
  end.

Definition sleep (seconds : Z) : Script unit :=
  fun w =>
    (Done tt,
     {| sent := sent w; checks := checks w; slept := slept w ++ [seconds] |}).

Definition iteration : Script unit :=
  login <- http_post (BASE_URL ++ "/auth/login")
             (Form [("email", "test@test.com"); ("password", "123456")]) [] ;;
  check login "Login başarılı"
    (fun res => (reply_status res =? 200)%Z) ;;;
  token <- json login "token" ;;
  let headers :=
    [("Authorization", "Bearer " ++ ToString token);
     ("x-api-key", API_KEY);
     ("Content-Type", "application/json")] in
  products <- http_get (BASE_URL ++ "/products?page=1&limit=20") headers ;;
  check products "Ürünler geldi"
    (fun res => (reply_status res =? 200)%Z) ;;;
  productId <- json products "items[0].id" ;;
  cart <- http_post (BASE_URL ++ "/cart/add")
            (Text (JSON_stringify
                     [("product_id", productId); ("quantity", JNumber 1%float)]))
            headers ;;
  check cart "Sepete eklendi"
    (fun res => (reply_status res =? 200)%Z) ;;;
  order <- http_post (BASE_URL ++ "/order")
             (Text (JSON_stringify
                      [("payment", JString "TEST_MODE");
                       ("shipping", JString "EXPRESS")]))
             headers ;;
  check order "Sipariş başarılı"
    (fun res => (reply_status res =? 200)%Z || (reply_status res =? 201)%Z) ;;;
  sleep 1.

End Iteration.

Section Requests.
Context {host : Host}.

(** The four requests of the journey, given what was captured. *)
Definition auth_headers (token : Json) : list (string * string) :=
  [("Authorization", "Bearer " ++ ToString token);
   ("x-api-key", API_KEY);
   ("Content-Type", "application/json")].

Definition login_request : Request :=
  {| method := POST; url := BASE_URL ++ "/auth/login";
     body := Form [("email", "test@test.com"); ("password", "123456")];
     headers := [] |}.

Definition products_request (token : Json) : Request :=
  {| method := GET; url := BASE_URL ++ "/products?page=1&limit=20";
     body := NoBody; headers := auth_headers token |}.

Definition cart_request (token productId : Json) : Request :=
  {| method := POST; url := BASE_URL ++ "/cart/add";
     body := Text (JSON_stringify
                     [("product_id", productId); ("quantity", JNumber 1%float)]);
     headers := auth_headers token |}.

Definition order_request (token : Json) : Request :=
  {| method := POST; url := BASE_URL ++ "/order";
     body := Text (JSON_stringify
                     [("payment", JString "TEST_MODE");
                      ("shipping", JString "EXPRESS")]);
     headers := auth_headers token |}.

End Requests.

(** A double quote, for writing JSON texts. *)
Definition dq : string := String quote_mark EmptyString.

(** A server that answers every request with status 500 and no JSON. *)
Definition failing_server (n : nat) (rq : Request) : HttpResponse :=
  {| status := 500; select := fun _ => JUndefined |}.

End LoadTest.

(** ** What the page derives from the reducers *)

(** The legend under the pie chart: [byStatus.filter(s => s.value > 0)]. *)
Definition status_legend (byStatus : list StatusSlice) : list StatusSlice :=
  filter (fun s => Nat.ltb 0 (value s)) byStatus.

(** Occurrences of a character in a text. *)
Fixpoint count_char (c : ascii) (s : string) : nat :=
  match s with
  | EmptyString => 0
  | String c' s' => (if Ascii.eqb c' c then 1 else 0) + count_char c s'
  end.

(** An integer inside a template literal. *)
Definition number_string (z : Z) : string := NilZero.string_of_int (Z.to_int z).

(** ** The PDF export

    [jsPDF] is driven through [doc.text(text, x, y)] and [doc.save(name)]:
    the export is the list of text calls, in order, and the file name. *)

Record TextCall : Type := {
  tc_text : string;
  tc_x : Z;
  tc_y : Z
}.

Section PdfExport.
Context {num : Type} {N : Number num}.
Variable toFixed : num -> nat -> string.

(** The callback of [filtered.slice(0, 5).forEach((o, idx) => ...)]. *)
Definition pdf_order_line (idx : nat) (o : OrderRow num) : TextCall :=
  {| tc_text := (number_string (Z.of_nat idx + 1) ++ ") " ++ date o ++ " - "
                 ++ CHANNEL_LABELS (channel o) ++ " - "
                 ++ toFixed (amount o) 2 ++ " TRY")%string;
     tc_x := 12;
     tc_y := 70 + Z.of_nat idx * 7 |}.

(** [forEach] with its index, from [idx] on. *)
Fixpoint forEach_indexed {A B : Type} (f : nat -> A -> B) (idx : nat)
  (l : list A) : list B :=
  match l with
  | [] => []
  | a :: l' => f idx a :: forEach_indexed f (S idx) l'
  end.

Definition exportPDF (now : Z) (filtered : list (OrderRow num))
  : list TextCall * string :=
  let t := totals filtered in
  ([ {| tc_text := "Detaylı Raporlama Özeti"; tc_x := 10; tc_y := 15 |};
     {| tc_text := ("Sipariş Adedi: "
                    ++ number_string (Z.of_nat (orderCount t)))%string;
        tc_x := 10; tc_y := 25 |};
     {| tc_text := ("Toplam Ciro: " ++ toFixed (totalAmount t) 2 ++ " TRY")%string;
        tc_x := 10; tc_y := 32 |};
     {| tc_text := ("Sepet Ort.: " ++ toFixed (avgBasket t) 2 ++ " TRY")%string;
        tc_x := 10; tc_y := 39 |};
     {| tc_text := ("İade/İptal Oranı: " ++ toFixed (returnedRate t) 1 ++ "%")%string;
        tc_x := 10; tc_y := 46 |};
     {| tc_text := ("Kargo Fişi Yazılı: " ++ toFixed (onTimeRate t) 1 ++ "%")%string;
        tc_x := 10; tc_y := 53 |};
     {| tc_text := "İlk 5 sipariş:"; tc_x := 10; tc_y := 63 |} ]
   ++ forEach_indexed pdf_order_line 0 (firstn 5 filtered),
   ("rapor-" ++ number_string now ++ ".pdf")%string).

End PdfExport.

(** ** The request of the order fetcher *)

Definition Channel_id (c : Channel) : string :=
  match c with
  | hepsiburada => "hepsiburada"
  | trendyol => "trendyol"
  | ticimax => "ticimax"
  | site => "site"
  | other => "other"
  end.

Definition Status_id (s : Status) : string :=
  match s with
  | pending => "pending"
  | processing => "processing"
  | shipped => "shipped"
  | delivered => "delivered"
  | cancelled => "cancelled"
  | returned => "returned"
  end.

(** The filter state: [None] stands for ['all']. *)
Record Filters : Type := {
  f_startDate : string;
  f_endDate : string;
  f_channel : option Channel;
  f_status : option Status
}.

(** Bytes that the [application/x-www-form-urlencoded] serialiser of
    [URLSearchParams] leaves as they are: ASCII letters and digits and
    [* - . _]. *)
Definition form_safe (c : ascii) : bool :=
  let n := N_of_ascii c in
  ((48 <=? n) && (n <=? 57) || (65 <=? n) && (n <=? 90)
   || (97 <=? n) && (n <=? 122)
   || (n =? 42) || (n =? 45) || (n =? 46) || (n =? 95))%N.

Definition upper_hex (n : N) : ascii :=
  if (n <? 10)%N then ascii_of_N (48 + n) else ascii_of_N (55 + n).

Definition form_byte (c : ascii) : string :=
  if form_safe c then String c EmptyString
  else if Ascii.eqb c " " then "+"%string
  else String "%" (String (upper_hex (N_of_ascii c / 16))
                     (String (upper_hex (N_of_ascii c mod 16)) EmptyString)).

Fixpoint form_encode (s : string) : string :=
  match s with
  | EmptyString => EmptyString
  | String c s' => (form_byte c ++ form_encode s')%string
  end.

(** [URLSearchParams.prototype.toString]. *)
Definition URLSearchParams_toString (params : list (string * string)) : string :=
  join "&" (map (fun p => (form_encode (fst p) ++ "=" ++ form_encode (snd p))%string)
                params).

(** The four conditional [params.append] calls. *)
Definition report_params (f : Filters) : list (string * string) :=
  (if truthy_string (f_startDate f) then [("dateFrom"%string, f_startDate f)] else [])
  ++ (if truthy_string (f_endDate f) then [("dateTo"%string, f_endDate f)] else [])
  ++ match f_channel f with
     | Some c => [("channel"%string, Channel_id c)]
     | None => []
     end
  ++ match f_status f with
     | Some s => [("status"%string, Status_id s)]
     | None => []
     end.

(** [String.prototype.includes]. *)
Fixpoint includes (s sub : string) : bool :=
  String.prefix sub s
  || match s with
     | EmptyString => false
     | String _ s' => includes s' sub
     end.

(** [process.env.NEXT_PUBLIC_API_URL || 'http://localhost:3001']. *)
Definition apiUrl (env : option string) : string :=
  match env with
  | Some u => if truthy_string u then u else "http://localhost:3001"
  | None => "http://localhost:3001"
  end.

Definition report_endpoint (env : option string) : string :=
  if includes (apiUrl env) "/api"
  then (apiUrl env ++ "/admin/reports")%string
  else (apiUrl env ++ "/api/admin/reports")%string.

(** The URL handed to [fetch]. *)
Definition report_url (env : option string) (f : Filters) : string :=
  (report_endpoint env ++ "?" ++ URLSearchParams_toString (report_params f))%string.

(** The request headers; [adminToken] is what
    [localStorage.getItem('adminToken')] returns, [None] for [null]. *)
Definition report_headers (adminToken : option string) : list (string * string) :=
  [("Authorization",
    ("Bearer " ++ match adminToken with
                  | Some t => t
                  | None => "null"
                  end)%string);
   ("Content-Type", "application/json"%string)]%string.

(** The view that [fetchOrders] leaves behind. *)
Definition view_after {num : Type} (reply : Fetcher.FetchOutcome num)
  (v : Fetcher.View num) : Fetcher.View num :=
  snd (fst (Fetcher.fetchOrders reply v)).

(** ** Further sample data *)

(** The sample orders with the first two swapped. *)
Definition decimal_orders_swapped : list (OrderRow Qc) :=
  [sample_order 2 "2024-03-02" other delivered (Q2Qc (2 # 10)) Null;
   sample_order 1 "2024-03-01" site delivered (Q2Qc (1 # 10)) Null;
   sample_order 3 "2024-03-01" site delivered (Q2Qc (22 # 10)) Null].

(** A zone five hours west of UTC. *)
Definition five_hours_west : Z := (- 5 * JsDate.msPerHour)%Z.

(** A formatter for running examples. *)
Definition sample_toFixed (x : Qc) (digits : nat) : string := "0.10".

(* ================================================================== *)
(** * Part II. Properties *)
(* ================================================================== *)

(** ** Numbers *)

#[export] Instance decimal_exact : ExactNumber Qc.
Proof.
  split; simpl.
  - apply Qcplus_assoc.
  - apply Qcplus_comm.
  - apply Qcplus_0_l.
Qed.

(** Two doubles that the IEEE comparison tells apart are different. *)
Lemma float_neq (x y : float) :
  PrimFloat.eqb x y = false -> PrimFloat.eqb y y = true -> x <> y.
Proof.
  intros Hxy Hyy E. rewrite E in Hxy. congruence.
Qed.

(** Binary64 addition is not associative: rounding depends on the order. *)
Lemma binary64_not_exact : ~ ExactNumber float.
Proof.
  intros [A _ _].
  specialize (A 0.1%float 0.2%float 2.2%float). simpl in A.
  revert A. apply float_neq; vm_compute; reflexivity.
Qed.

(** *** The exact value of a double *)

Lemma digits2_pos_size (p : positive) : digits2_pos p = Pos.size p.
Proof. induction p; simpl; congruence. Qed.

Lemma digits2_pos_log2 (m : positive) :
  Z.pos (digits2_pos m) = (Z.log2 (Z.pos m) + 1)%Z.
Proof.
  destruct m; simpl; rewrite ?digits2_pos_size; lia.
Qed.

(** The mantissa and exponent of a double are the canonical ones: 53
    significant bits, or fewer at the least exponent. *)
Lemma finite_canonical (x : float) s m e
  (Hx : Prim2SF x = S754_finite s m e) :
  Z.max (Z.log2 (Z.pos m) + 1 + e - 53) (-1074) = e.
Proof.
  pose proof (Prim2SF_valid x) as V. rewrite Hx in V.
  unfold valid_binary, bounded, canonical_mantissa, fexp, SpecFloat.emin in V.
  apply andb_true_iff in V. destruct V as [V _].
  apply Z.eqb_eq in V. rewrite digits2_pos_log2 in V.
  change prec with 53%Z in V. change emax with 1024%Z in V.
  lia.
Qed.

Lemma canonical_unique (m1 m2 : positive) (e1 e2 : Z) :
  Z.max (Z.log2 (Z.pos m1) + 1 + e1 - 53) (-1074) = e1 ->
  Z.max (Z.log2 (Z.pos m2) + 1 + e2 - 53) (-1074) = e2 ->
  (Z.pos m1 * 2 ^ (e1 + 1074) = Z.pos m2 * 2 ^ (e2 + 1074))%Z ->
  m1 = m2 /\ e1 = e2.
Proof.
  intros C1 C2 E.
  assert (L : (Z.log2 (Z.pos m1 * 2 ^ (e1 + 1074))
               = Z.log2 (Z.pos m2 * 2 ^ (e2 + 1074)))%Z) by (now rewrite E).
  rewrite !Z.log2_mul_pow2 in L by lia.
  assert (He : e1 = e2) by lia.
  subst e2. split; [|reflexivity].
  apply Z.mul_cancel_r in E; [congruence|].
  apply Z.pow_nonzero; lia.
Qed.

(** Two doubles with the same exact value are equal for [===]: they are
    the same double, or the two zeros. *)
Lemma exact_value_eqb (a b : float) (z : Z) :
  exact_value a = Some z -> exact_value b = Some z -> PrimFloat.eqb a b = true.
Proof.
  unfold exact_value. rewrite FloatAxioms.eqb_spec.
  destruct (Prim2SF a) as [sa| | |sa ma ea] eqn:Ha; try discriminate;
    destruct (Prim2SF b) as [sb| | |sb mb eb] eqn:Hb; try discriminate;
    intros Ea Eb; injection Ea as Ea; injection Eb as Eb.
  - reflexivity.
  - exfalso. pose proof (finite_canonical b Hb) as Cb.
    assert (0 < 2 ^ (eb + 1074))%Z by (apply Z.pow_pos_nonneg; lia).
    destruct sb; nia.
  - exfalso. pose proof (finite_canonical a Ha) as Ca.
    assert (0 < 2 ^ (ea + 1074))%Z by (apply Z.pow_pos_nonneg; lia).
    destruct sa; nia.
  - pose proof (finite_canonical a Ha) as Ca.
    pose proof (finite_canonical b Hb) as Cb.
    assert (Pa : (0 < 2 ^ (ea + 1074))%Z) by (apply Z.pow_pos_nonneg; lia).
    assert (Pb : (0 < 2 ^ (eb + 1074))%Z) by (apply Z.pow_pos_nonneg; lia).
    assert (Hs : sa = sb) by (destruct sa, sb; try reflexivity; exfalso; nia).
    subst sb.
    destruct (@canonical_unique ma mb ea eb Ca Cb) as [-> ->].
    { subst z. destruct sa; [|symmetry; exact Eb].
      change (Z.neg ma) with (- Z.pos ma)%Z in Eb.
      change (Z.neg mb) with (- Z.pos mb)%Z in Eb. lia. }
    unfold SFeqb, SFcompare. rewrite Z.compare_refl.
    rewrite Pos.compare_cont_refl. now destruct sa.
Qed.

(** They are the same double unless one of them is the negative zero. *)
Lemma exact_value_eq (a b : float) (z : Z) :
  exact_value a = Some z -> exact_value b = Some z ->
  Prim2SF a <> S754_zero true -> Prim2SF b <> S754_zero true ->
  a = b.
Proof.
  unfold exact_value. intros Ea Eb Na Nb. apply Prim2SF_inj.
  destruct (Prim2SF a) as [sa| | |sa ma ea] eqn:Ha; try discriminate;
    destruct (Prim2SF b) as [sb| | |sb mb eb] eqn:Hb; try discriminate;
    injection Ea as Ea; injection Eb as Eb.
  - destruct sa, sb; congruence.
  - exfalso. pose proof (finite_canonical b Hb) as Cb.
    assert (0 < 2 ^ (eb + 1074))%Z by (apply Z.pow_pos_nonneg; lia).
    destruct sb; nia.
  - exfalso. pose proof (finite_canonical a Ha) as Ca.
    assert (0 < 2 ^ (ea + 1074))%Z by (apply Z.pow_pos_nonneg; lia).
    destruct sa; nia.
  - pose proof (finite_canonical a Ha) as Ca.
    pose proof (finite_canonical b Hb) as Cb.
    assert (Pa : (0 < 2 ^ (ea + 1074))%Z) by (apply Z.pow_pos_nonneg; lia).
    assert (Pb : (0 < 2 ^ (eb + 1074))%Z) by (apply Z.pow_pos_nonneg; lia).
    assert (Hs : sa = sb) by (destruct sa, sb; try reflexivity; exfalso; nia).
    subst sb.
    destruct (@canonical_unique ma mb ea eb Ca Cb) as [-> ->]; [| reflexivity].
    subst z. destruct sa; [| symmetry; exact Eb].
    change (Z.neg ma) with (- Z.pos ma)%Z in Eb.
    change (Z.neg mb) with (- Z.pos mb)%Z in Eb. lia.
Qed.

(** Aligning a mantissa to a smaller exponent keeps the value. *)
Lemma shl_align_value (m : positive) (e ez : Z) :
  (ez <= e)%Z -> (0 <= ez + 1074)%Z ->
  (Z.pos (fst (shl_align m e ez)) * 2 ^ (ez + 1074)
   = Z.pos m * 2 ^ (e + 1074))%Z.
Proof.
  intros Hle Hez. unfold shl_align.
  destruct (ez - e)%Z as [|d|d] eqn:Ed; cbn [fst].
  - replace e with ez by lia. reflexivity.
  - lia.
  - change (Pos.iter xO m d) with (shift_pos d m).
    rewrite shift_pos_correct.
    change (Z.pow_pos 2 d) with (2 ^ Z.pos d)%Z.
    replace (e + 1074)%Z with (Z.pos d + (ez + 1074))%Z by lia.
    rewrite (Z.pow_add_r 2 (Z.pos d) (ez + 1074)) by lia. ring.
Qed.

(** An addition that does not round gives the negative zero only from
    the negative zero. *)
Lemma add_not_negative_zero (acc x : float) :
  Prim2SF acc <> S754_zero true -> adds_exactly acc x = true ->
  Prim2SF (acc + x) <> S754_zero true.
Proof.
  unfold adds_exactly, exact_value.
  rewrite FloatAxioms.add_spec. unfold SF64add, SFadd.
  destruct (Prim2SF acc) as [sa| | |sa ma ea] eqn:Ha; try discriminate;
    destruct (Prim2SF x) as [sx| | |sx mx ex] eqn:Hx; try discriminate.
  - intros Hacc _. destruct sa; [congruence |]. now destruct sx.
  - intros _ Hsum Hzero. cbv zeta in *. rewrite Hzero in Hsum.
    change IntDef.Z.min with Z.min in *.
    apply Z.eqb_eq in Hsum.
    pose proof (finite_canonical acc Ha) as Ca.
    pose proof (finite_canonical x Hx) as Cx.
    pose proof (@shl_align_value ma ea (Z.min ea ex) ltac:(lia) ltac:(lia)) as Va.
    pose proof (@shl_align_value mx ex (Z.min ea ex) ltac:(lia) ltac:(lia)) as Vx.
    assert (P : (0 < 2 ^ (Z.min ea ex + 1074))%Z)
      by (apply Z.pow_pos_nonneg; lia).
    revert Hzero.
    set (A := Z.pos (fst (shl_align ma ea (Z.min ea ex)))) in *.
    set (B := Z.pos (fst (shl_align mx ex (Z.min ea ex)))) in *.
    assert (HM : (cond_Zopp sa A + cond_Zopp sx B = 0)%Z).
    { change (Z.neg ma) with (- Z.pos ma)%Z in Hsum.
      change (Z.neg mx) with (- Z.pos mx)%Z in Hsum.
      destruct sa, sx; cbn [cond_Zopp]; nia. }
    rewrite HM. discriminate.
Qed.

Lemma sums_exactly_not_negative_zero (xs : list float) (acc : float) :
  Prim2SF acc <> S754_zero true -> sums_exactly acc xs = true ->
  Prim2SF (fold_left PrimFloat.add xs acc) <> S754_zero true.
Proof.
  revert acc. induction xs as [|x xs IH]; intros acc Hacc H; simpl.
  - exact Hacc.
  - simpl in H. apply andb_true_iff in H. destruct H as [Hx Hxs].
    apply IH; [now apply add_not_negative_zero | exact Hxs].
Qed.

(** A left-to-right sum without rounding has the exact sum as its value. *)
Lemma sums_exactly_value (xs : list float) (acc : float) (a : Z) :
  exact_value acc = Some a ->
  sums_exactly acc xs = true ->
  exact_value (fold_left PrimFloat.add xs acc)
  = Some (a + Zsum (map value_of xs))%Z.
Proof.
  revert acc a. induction xs as [|x xs IH]; intros acc a Ha H; simpl.
  - rewrite Ha. f_equal. lia.
  - simpl in H. apply andb_true_iff in H. destruct H as [Hx Hxs].
    unfold adds_exactly in Hx. rewrite Ha in Hx.
    destruct (exact_value x) as [b|] eqn:Hb; [|discriminate].
    destruct (exact_value (acc + x)) as [c|] eqn:Hc; [|discriminate].
    apply Z.eqb_eq in Hx. subst c.
    rewrite (IH _ _ Hc Hxs). unfold value_of at 2. rewrite Hb. f_equal. lia.
Qed.

Lemma sum_amounts_value (xs : list float) :
  sums_exactly 0 xs = true ->
  exact_value (sum_amounts xs) = Some (Zsum (map value_of xs)).
Proof.
  intros H. exact (@sums_exactly_value xs 0%float 0%Z eq_refl H).
Qed.

Lemma sum_amounts_not_negative_zero (xs : list float) :
  sums_exactly 0 xs = true -> Prim2SF (sum_amounts xs) <> S754_zero true.
Proof.
  intros H. apply (@sums_exactly_not_negative_zero xs 0%float); [| exact H].
  vm_compute. discriminate.
Qed.

(** Two sums without rounding that have the same exact value are the same
    double. *)
Lemma sum_amounts_same (xs ys : list float) :
  sums_exactly 0 xs = true -> sums_exactly 0 ys = true ->
  Zsum (map value_of xs) = Zsum (map value_of ys) ->
  sum_amounts xs = sum_amounts ys
  /\ PrimFloat.eqb (sum_amounts xs) (sum_amounts ys) = true.
Proof.
  intros Hx Hy E.
  pose proof (sum_amounts_value _ Hx) as Vx.
  pose proof (sum_amounts_value _ Hy) as Vy. rewrite <- E in Vy.
  split.
  - apply (exact_value_eq _ _ Vx Vy); now apply sum_amounts_not_negative_zero.
  - exact (exact_value_eqb _ _ Vx Vy).
Qed.

Lemma fold_left_amounts {num : Type} {N : Number num}
  (l : list (OrderRow num)) (a : num) :
  fold_left (fun s o => nadd s (amount o)) l a
  = fold_left nadd (map (@amount num) l) a.
Proof.
  revert a. induction l as [|o l IH]; intros a; simpl; [reflexivity | apply IH].
Qed.

Lemma totalAmount_sum {num : Type} {N : Number num} (l : list (OrderRow num)) :
  totalAmount (totals l) = sum_amounts (map (@amount num) l).
Proof.
  unfold totals. cbn [totalAmount]. apply fold_left_amounts.
Qed.

Section ExactSums.
Context {num : Type} {N : Number num} {E : ExactNumber num}.

Lemma nadd_zero_r (x : num) : nadd x nzero = x.
Proof. rewrite nadd_comm. apply nadd_zero_l. Qed.

(** Adding [x] somewhere inside a left-to-right sum adds [x] to the sum. *)
Lemma nadd_right_comm (a b x : num) : nadd (nadd a x) b = nadd (nadd a b) x.
Proof.
  rewrite <- !nadd_assoc. f_equal. apply nadd_comm.
Qed.

Lemma fold_nadd_shift (xs : list num) (a x : num) :
  fold_left nadd xs (nadd a x) = nadd (fold_left nadd xs a) x.
Proof.
  revert a. induction xs as [|y xs IH]; intros a; simpl.
  - reflexivity.
  - rewrite nadd_right_comm. apply IH.
Qed.

Lemma sum_amounts_cons (x : num) (xs : list num) :
  sum_amounts (x :: xs) = nadd (sum_amounts xs) x.
Proof.
  unfold sum_amounts. simpl. rewrite nadd_zero_l.
  rewrite <- (nadd_zero_l x) at 1. apply fold_nadd_shift.
Qed.

Lemma sum_amounts_app (xs ys : list num) :
  sum_amounts (xs ++ ys) = nadd (sum_amounts xs) (sum_amounts ys).
Proof.
  induction xs as [|x xs IH]; simpl.
  - unfold sum_amounts at 2. simpl. now rewrite nadd_zero_l.
  - rewrite !sum_amounts_cons, IH. apply nadd_right_comm.
Qed.

Lemma sum_amounts_perm (xs ys : list num) :
  Permutation xs ys -> sum_amounts xs = sum_amounts ys.
Proof.
  induction 1 as [|x xs ys _ IH|x y xs|xs ys zs _ IH1 _ IH2].
  - reflexivity.
  - now rewrite !sum_amounts_cons, IH.
  - rewrite !sum_amounts_cons. apply nadd_right_comm.
  - now rewrite IH1.
Qed.

End ExactSums.

(** ** By-status and by-channel buckets *)

Section ReducerFacts.
Context {num : Type} {N : Number num}.

Lemma status_fold_total (l : list (OrderRow num)) (m : Status -> nat) :
  list_sum (map (fold_left status_visit l m) statusKeys)
  = list_sum (map m statusKeys) + List.length l.
Proof.
  revert m. induction l as [|o l IH]; intros m; simpl fold_left.
  - simpl. lia.
  - rewrite IH. unfold status_visit. simpl.
    destruct (status o); simpl; lia.
Qed.

Lemma reduce_values (data : list StatusSlice) (s : nat) :
  fold_left (fun s d => s + value d) data s = s + list_sum (map value data).
Proof.
  revert s. induction data as [|d data IH]; intros s; simpl.
  - lia.
  - rewrite IH. lia.
Qed.

(** The [total] that [byStatus] tests is the number of orders. *)
Lemma byStatus_total (l : list (OrderRow num)) :
  fold_left (fun s d => s + value d)
    (map (fun k => {| ss_status := k;
                      value := fold_left status_visit l (fun _ => 0) k |})
         statusKeys) 0
  = List.length l.
Proof.
  rewrite reduce_values, map_map. cbn [value].
  exact (status_fold_total l (fun _ => 0)).
Qed.

(** C2: the by-status reducer returns the single synthetic bucket
    [{status: pending, value: 1}] for the empty list and only for it; for a
    non-empty list it returns the six fixed status buckets, in key order,
    and their counts sum to the number of orders. *)
Theorem byStatus_buckets (l : list (OrderRow num)) :
  match l with
  | [] => byStatus l = [{| ss_status := pending; value := 1 |}]
  | _ :: _ =>
      map ss_status (byStatus l) = statusKeys
      /\ list_sum (map value (byStatus l)) = List.length l
  end
  /\ (byStatus l = [{| ss_status := pending; value := 1 |}] <-> l = []).
Proof.
  assert (Hne : forall (o : OrderRow num) (l' : list (OrderRow num)),
             byStatus (o :: l')
             = map (fun k => {| ss_status := k;
                                value := fold_left status_visit (o :: l')
                                           (fun _ => 0) k |}) statusKeys).
  { intros o l'. unfold byStatus. rewrite byStatus_total. reflexivity. }
  destruct l as [|o l'].
  - split; [reflexivity | split; reflexivity].
  - split.
    + rewrite Hne. split.
      * rewrite map_map. reflexivity.
      * rewrite <- (byStatus_total (o :: l')), reduce_values. reflexivity.
    + rewrite Hne. split; intros H; discriminate H.
Qed.

Lemma channel_fold_channel (l : list (OrderRow num))
  (m : Channel -> ChannelBucket num) (c : Channel) :
  cb_channel (fold_left channel_visit l m c) = cb_channel (m c).
Proof.
  revert m. induction l as [|o l IH]; intros m; simpl.
  - reflexivity.
  - rewrite IH. unfold channel_visit. now destruct (Channel_eqb c (channel o)).
Qed.

Lemma channel_fold_counts (l : list (OrderRow num))
  (m : Channel -> ChannelBucket num) :
  list_sum (map (fun c => cb_count (fold_left channel_visit l m c)) channelOrder)
  = list_sum (map (fun c => cb_count (m c)) channelOrder) + List.length l.
Proof.
  revert m. induction l as [|o l IH]; intros m; simpl fold_left.
  - simpl. lia.
  - rewrite IH. unfold channel_visit. simpl.
    destruct (channel o); simpl; lia.
Qed.

(** Each channel's bucket holds the orders of that channel: their number,
    and their amounts added in list order. *)
Lemma channel_fold_bucket (l : list (OrderRow num))
  (m : Channel -> ChannelBucket num) (c : Channel) :
  let mine := filter (fun o => Channel_eqb c (channel o)) l in
  cb_count (fold_left channel_visit l m c) = cb_count (m c) + List.length mine
  /\ cb_amount (fold_left channel_visit l m c)
     = fold_left nadd (map (@amount num) mine) (cb_amount (m c)).
Proof.
  revert m. induction l as [|o l IH]; intros m; simpl.
  - split; [lia | reflexivity].
  - destruct (IH (channel_visit m o)) as [IHc IHa].
    rewrite IHc, IHa. unfold channel_visit.
    destruct (Channel_eqb c (channel o)); simpl; split; try reflexivity; lia.
Qed.

(** C9: the by-channel reducer returns exactly five buckets, one per
    channel, in the fixed order hepsiburada, trendyol, ticimax, site,
    other, and the bucket counts sum to the number of orders. *)
Theorem byChannel_five_buckets (l : list (OrderRow num)) :
  map (@cb_channel num) (byChannel l) = channelOrder
  /\ List.length (byChannel l) = 5
  /\ list_sum (map (@cb_count num) (byChannel l)) = List.length l.
Proof.
  unfold byChannel. split; [|split].
  - rewrite map_map. simpl. now rewrite !channel_fold_channel.
  - reflexivity.
  - rewrite map_map, channel_fold_counts. reflexivity.
Qed.

(** C4 (as corrected): with no orders the three ratios are [0]; otherwise
    [avgBasket] is [totalAmount / orderCount], [returnedRate] is
    [(returned / orderCount) * 100] and [onTimeRate] is
    [(slips / orderCount) * 100], where [slips] counts the orders whose
    [cargoSlipPrintedAt] is truthy: a non-empty string. *)
Theorem totals_ratios (l : list (OrderRow num)) :
  let t := totals l in
  let n := List.length l in
  let returns :=
    List.length (filter (fun o => Status_eqb (status o) returned) l) in
  let slips :=
    List.length (filter (fun o => truthy (cargoSlipPrintedAt o)) l) in
  orderCount t = n
  /\ totalAmount t = fold_left (fun s o => nadd s (amount o)) l nzero
  /\ if Nat.eqb n 0
     then avgBasket t = nzero /\ returnedRate t = nzero /\ onTimeRate t = nzero
     else avgBasket t = ndiv (totalAmount t) (of_count n)
          /\ returnedRate t
             = nmul (ndiv (of_count returns) (of_count n)) (of_count 100)
          /\ onTimeRate t
             = nmul (ndiv (of_count slips) (of_count n)) (of_count 100).
Proof.
  unfold totals, truthy_count. simpl.
  destruct (Nat.eqb (List.length l) 0); simpl; auto.
Qed.

End ReducerFacts.

(** C4, counterexample: an order whose [cargoSlipPrintedAt] is the empty
    string is non-null, yet [!!""] is false and the order is not counted:
    the rate is 0 where the non-null count gives 100. *)
Lemma onTimeRate_ignores_blank_slip :
  ~ (forall l : list (OrderRow float),
       l <> [] ->
       onTimeRate (totals l)
       = nmul (ndiv (of_count (nonnull_slip_count l))
                    (of_count (List.length l)))
              (of_count 100)).
Proof.
  intros H. specialize (H blank_slip_orders).
  assert (Hne : blank_slip_orders <> []) by discriminate.
  specialize (H Hne). revert H.
  apply float_neq; vm_compute; reflexivity.
Qed.

(** ** By-channel amounts against the grand total *)

Section ChannelTotal.
Context {num : Type} {N : Number num} {E : ExactNumber num}.

Lemma total_fold_amounts (l : list (OrderRow num)) (a : num) :
  fold_left (fun s o => nadd s (amount o)) l a
  = nadd a (sum_amounts (map (@amount num) l)).
Proof.
  revert a. induction l as [|o l IH]; intros a; simpl.
  - unfold sum_amounts. simpl. now rewrite nadd_zero_r.
  - rewrite IH, sum_amounts_cons, nadd_assoc. apply nadd_right_comm.
Qed.

Lemma channel_visit_sum (m : Channel -> ChannelBucket num) (o : OrderRow num) :
  sum_amounts (map (fun c => cb_amount (channel_visit m o c)) channelOrder)
  = nadd (sum_amounts (map (fun c => cb_amount (m c)) channelOrder)) (amount o).
Proof.
  unfold channel_visit, sum_amounts. simpl.
  destruct (channel o); simpl;
    rewrite nadd_assoc; repeat rewrite (nadd_right_comm _ _ (amount o));
    reflexivity.
Qed.

Lemma channel_fold_sum (l : list (OrderRow num))
  (m : Channel -> ChannelBucket num) :
  sum_amounts (map (fun c => cb_amount (fold_left channel_visit l m c))
                   channelOrder)
  = nadd (sum_amounts (map (fun c => cb_amount (m c)) channelOrder))
         (sum_amounts (map (@amount num) l)).
Proof.
  revert m. induction l as [|o l IH]; intros m; simpl fold_left.
  - simpl map at 3. unfold sum_amounts at 3. simpl. now rewrite nadd_zero_r.
  - rewrite IH, channel_visit_sum. cbn [map].
    rewrite sum_amounts_cons, nadd_assoc. apply nadd_right_comm.
Qed.

(** On a number type whose addition is exact, the amounts of the five
    by-channel buckets sum to [totals.totalAmount]. *)
Lemma byChannel_amounts_total (l : list (OrderRow num)) :
  sum_amounts (map (@cb_amount num) (byChannel l)) = totalAmount (totals l).
Proof.
  unfold byChannel, totals. cbn [totalAmount].
  rewrite map_map, channel_fold_sum, total_fold_amounts.
  f_equal. unfold sum_amounts. simpl. now rewrite !nadd_zero_l.
Qed.

End ChannelTotal.

(** The three sample orders with exact decimal amounts. *)
Lemma byChannel_amounts_total_decimal :
  sum_amounts (map (@cb_amount Qc) (byChannel decimal_orders))
  = totalAmount (totals decimal_orders).
Proof.
  exact (@byChannel_amounts_total Qc decimal decimal_exact decimal_orders).
Defined.

(** C3, counterexample: on doubles the two sums differ.  For the amounts
    0.1 (site), 0.2 (other), 2.2 (site) the total is [(0.1 + 0.2) + 2.2 =
    2.5] while the buckets give [(0.1 + 2.2) + 0.2 = 2.5000000000000004]. *)
Lemma byChannel_amounts_total_rounding :
  ~ (forall l : list (OrderRow float),
       sum_amounts (map (@cb_amount float) (byChannel l))
       = totalAmount (totals l)).
Proof.
  intros H. specialize (H rounding_orders). revert H.
  apply float_neq; vm_compute; reflexivity.
Qed.

(** *** Doubles that add without rounding *)

Lemma Zsum_by_channel {num : Type} (f : OrderRow num -> Z)
  (l : list (OrderRow num)) :
  Zsum (map (fun c =>
               Zsum (map f (filter (fun o => Channel_eqb c (channel o)) l)))
            channelOrder)
  = Zsum (map f l).
Proof.
  unfold channelOrder. induction l as [|o l IH].
  - reflexivity.
  - cbn [map Zsum fold_right] in IH |- *. unfold Zsum in IH |- *.
    cbn [filter]. destruct (channel o); cbn [Channel_eqb map fold_right] in IH |- *; lia.
Qed.

Lemma channel_bucket_value (l : list (OrderRow float)) (c : Channel) :
  sums_exactly 0 (map (@amount float)
                      (filter (fun o => Channel_eqb c (channel o)) l)) = true ->
  value_of (cb_amount (fold_left channel_visit l channel_map_init c))
  = Zsum (map (fun o => value_of (amount o))
              (filter (fun o => Channel_eqb c (channel o)) l)).
Proof.
  intros H.
  destruct (channel_fold_bucket l channel_map_init c) as [_ Ha].
  rewrite Ha. cbn [channel_map_init cb_amount].
  unfold value_of at 1.
  change (fold_left nadd ?xs nzero) with (sum_amounts xs).
  rewrite (sum_amounts_value _ H), map_map. reflexivity.
Qed.

(** C3 (as corrected): on doubles, the amounts of the five by-channel
    buckets sum to [totals.totalAmount], the same double and so equal for
    [===], whenever none of the additions involved rounds: those of the
    grand total, those of each channel's bucket and those of summing the
    five buckets. *)
Theorem byChannel_amounts_total_unrounded (l : list (OrderRow float)) :
  sums_exactly 0 (map (@amount float) l) = true ->
  (forall c : Channel,
     sums_exactly 0 (map (@amount float)
                         (filter (fun o => Channel_eqb c (channel o)) l))
     = true) ->
  sums_exactly 0 (map (@cb_amount float) (byChannel l)) = true ->
  sum_amounts (map (@cb_amount float) (byChannel l)) = totalAmount (totals l)
  /\ PrimFloat.eqb (sum_amounts (map (@cb_amount float) (byChannel l)))
                   (totalAmount (totals l)) = true.
Proof.
  intros Htotal Hbucket Hbuckets. rewrite totalAmount_sum.
  apply sum_amounts_same; [exact Hbuckets | exact Htotal |].
  unfold byChannel. rewrite !map_map.
  rewrite <- (Zsum_by_channel (fun o => value_of (amount o)) l).
  f_equal. unfold channelOrder. cbn [map].
  now rewrite !channel_bucket_value by apply Hbucket.
Qed.

(** C3, witness: three orders on doubles, with the amounts 0.5 (site),
    0.25 (other) and 2 (site). *)
Lemma byChannel_amounts_total_unrounded_sample :
  sum_amounts (map (@cb_amount float) (byChannel unrounded_orders))
  = totalAmount (totals unrounded_orders)
  /\ PrimFloat.eqb
       (sum_amounts (map (@cb_amount float) (byChannel unrounded_orders)))
       (totalAmount (totals unrounded_orders)) = true.
Proof.
  apply (byChannel_amounts_total_unrounded unrounded_orders).
  - vm_compute; reflexivity.
  - intros c; destruct c; vm_compute; reflexivity.
  - vm_compute; reflexivity.
Defined.

(** With no orders nothing is added but zeros. *)
Example byChannel_amounts_total_empty :
  sums_exactly 0 (map (@cb_amount float) (byChannel [])) = true
  /\ sum_amounts (map (@cb_amount float) (byChannel []))
     = totalAmount (totals []).
Proof. split; vm_compute; reflexivity. Qed.

(** Exact additions in list order are not enough: for the amounts 1
    (other), 1 (site) and [2^53] (hepsiburada) the total [(1 + 1) + 2^53]
    is exact, while summing the buckets rounds [2^53 + 1] to [2^53]. *)
Example byChannel_amounts_total_needs_bucket_sums :
  let l := [sample_order 1 "2024-03-01" other delivered 1%float Null;
            sample_order 2 "2024-03-01" site delivered 1%float Null;
            sample_order 3 "2024-03-01" hepsiburada delivered 0x1p53%float Null]
  in
  sums_exactly 0 (map (@amount float) l) = true
  /\ sums_exactly 0 (map (@cb_amount float) (byChannel l)) = false
  /\ PrimFloat.eqb (sum_amounts (map (@cb_amount float) (byChannel l)))
                   (totalAmount (totals l)) = false.
Proof. repeat split; vm_compute; reflexivity. Qed.

(** ** Plain objects as maps *)

Section ObjectFacts.
Context {V : Type}.
Implicit Types (obj : JsObject V) (k : string) (f : V -> V).

Lemma own_get_add obj k v k' :
  own_get (own_add obj k v) k'
  = match own_get obj k' with
    | Some x => Some x
    | None => if String.eqb k' k then Some v else None
    end.
Proof.
  unfold own_add. induction obj as [|[k0 v0] obj IH]; simpl.
  - reflexivity.
  - now destruct (String.eqb k' k0).
Qed.

Lemma own_get_update obj k f k' :
  own_get (own_update obj k f) k'
  = if String.eqb k' k then option_map f (own_get obj k) else own_get obj k'.
Proof.
  induction obj as [|[k0 v0] obj IH]; simpl.
  - now destruct (String.eqb k' k).
  - destruct (String.eqb k k0) eqn:E; simpl.
    + apply String.eqb_eq in E. subst k0.
      destruct (String.eqb k' k); reflexivity.
    + rewrite IH. destruct (String.eqb k' k) eqn:E'; [|reflexivity].
      apply String.eqb_eq in E'. subst k'. now rewrite E.
Qed.

Lemma own_update_keys obj k f :
  map fst (own_update obj k f) = map fst obj.
Proof.
  induction obj as [|[k0 v0] obj IH]; simpl.
  - reflexivity.
  - destruct (String.eqb k k0); simpl; [reflexivity | now rewrite IH].
Qed.

Lemma own_get_None obj k :
  own_get obj k = None <-> ~ In k (map fst obj).
Proof.
  induction obj as [|[k0 v0] obj IH]; simpl.
  - tauto.
  - destruct (String.eqb k k0) eqn:E.
    + apply String.eqb_eq in E. subst k0. split; [discriminate | tauto].
    + apply String.eqb_neq in E. rewrite IH. split.
      * intros Hn [H|H]; [congruence | tauto].
      * tauto.
Qed.

Lemma own_update_absent obj k f :
  own_get obj k = None -> own_update obj k f = obj.
Proof.
  induction obj as [|[k0 v0] obj IH]; simpl.
  - reflexivity.
  - destruct (String.eqb k k0); [discriminate |].
    intros H. now rewrite IH.
Qed.

Lemma own_get_In obj k v :
  NoDup (map fst obj) -> (In (k, v) obj <-> own_get obj k = Some v).
Proof.
  induction obj as [|[k0 v0] obj IH]; simpl; intros ND.
  - split; [tauto | discriminate].
  - inversion ND as [|? ? Hnotin ND']; subst.
    destruct (String.eqb k k0) eqn:E.
    + apply String.eqb_eq in E. subst k0. split.
      * intros [H|H]; [congruence |].
        exfalso. apply Hnotin. change k with (fst (k, v)). now apply in_map.
      * intros H. left. congruence.
    + apply String.eqb_neq in E. rewrite <- (IH ND'). split.
      * intros [H|H]; [congruence | exact H].
      * tauto.
Qed.

End ObjectFacts.

(** ** Sorting *)

Section SortFacts.
Context {A : Type} (cmp : A -> A -> Z).

Lemma sort_insert_perm (x : A) (l : list A) :
  Permutation (sort_insert cmp x l) (x :: l).
Proof.
  induction l as [|y l IH]; simpl.
  - reflexivity.
  - destruct (cmp x y <=? 0)%Z.
    + reflexivity.
    + rewrite IH. apply perm_swap.
Qed.

Lemma sort_perm (l : list A) : Permutation (sort cmp l) l.
Proof.
  induction l as [|x l IH]; simpl.
  - reflexivity.
  - rewrite sort_insert_perm. now constructor.
Qed.

(** On a set [P] of elements where the comparator is total, the result
    is ordered by it. *)
Variable P : A -> Prop.
Hypothesis cmp_total :
  forall x y, P x -> P y -> (cmp x y > 0)%Z -> (cmp y x <= 0)%Z.

Lemma sort_insert_sorted (x : A) (l : list A) :
  P x -> Forall P l ->
  Sorted (fun a b => (cmp a b <= 0)%Z) l ->
  Sorted (fun a b => (cmp a b <= 0)%Z) (sort_insert cmp x l).
Proof.
  intros Px. induction l as [|y l IH]; simpl; intros Pl Sl.
  - repeat constructor.
  - inversion Pl as [|? ? Py Pl']; subst.
    inversion Sl as [|? ? Sl' Hd]; subst.
    destruct (cmp x y <=? 0)%Z eqn:E.
    + apply Z.leb_le in E. repeat constructor; assumption.
    + apply Z.leb_gt in E. constructor.
      * now apply IH.
      * destruct l as [|z l]; simpl.
        -- constructor. apply cmp_total; [assumption | assumption | lia].
        -- destruct (cmp x z <=? 0)%Z; constructor.
           ++ apply cmp_total; [assumption | assumption | lia].
           ++ now inversion Hd.
Qed.

Lemma sort_sorted (l : list A) :
  Forall P l -> Sorted (fun a b => (cmp a b <= 0)%Z) (sort cmp l).
Proof.
  induction l as [|x l IH]; simpl; intros Pl.
  - constructor.
  - inversion Pl as [|? ? Px Pl']; subst.
    apply sort_insert_sorted; [assumption | | now apply IH].
    rewrite Forall_forall in *. intros y Hy. apply Pl'.
    now apply (Permutation_in _ (sort_perm l)).
Qed.

End SortFacts.

Lemma list_sum_perm (xs ys : list nat) :
  Permutation xs ys -> list_sum xs = list_sum ys.
Proof.
  induction 1; simpl; lia.
Qed.

(** [Object.values] returns every own value once. *)
Lemma Object_values_perm {V : Type} (obj : JsObject V) :
  Permutation (Object_values obj) (map snd obj).
Proof.
  unfold Object_values.
  rewrite (Permutation_map snd (sort_perm _ (index_entries obj))).
  induction obj as [|[k v] obj IH]; simpl.
  - reflexivity.
  - unfold index_entries, string_entries in *. simpl.
    destruct (array_index k); simpl.
    + now constructor.
    + rewrite <- Permutation_middle. now constructor.
Qed.

(** ** The time series *)

Section SeriesFacts.
Context {num : Type} {N : Number num}.

Lemma orders_of_day_snoc (d : string) (l : list (OrderRow num)) (o : OrderRow num) :
  orders_of_day d (l ++ [o])
  = orders_of_day d l ++ (if String.eqb (date o) d then [o] else []).
Proof.
  unfold orders_of_day. rewrite filter_app. simpl.
  now destruct (String.eqb (date o) d).
Qed.

Lemma day_bucket_snoc_other (l : list (OrderRow num)) (o : OrderRow num)
  (k : string) :
  String.eqb (date o) k = false -> day_bucket (l ++ [o]) k = day_bucket l k.
Proof.
  intros Ek. unfold day_bucket.
  now rewrite orders_of_day_snoc, Ek, app_nil_r.
Qed.

(** The own properties of [bucket] after the [forEach]. *)
Lemma series_fold_get (l : list (OrderRow num)) (k : string) :
  own_get (fold_left series_visit l []) k = day_bucket l k.
Proof.
  revert k. induction l as [|o l IH] using rev_ind; intros k.
  - unfold day_bucket. simpl. now destruct (inherited k).
  - rewrite fold_left_app. cbn [fold_left].
    set (bucket := fold_left series_visit l []) in *.
    destruct (String.eqb (date o) k) eqn:Ek.
    + apply String.eqb_eq in Ek. subst k.
      unfold series_visit. rewrite (IH (date o)).
      unfold day_bucket at 2. rewrite orders_of_day_snoc, String.eqb_refl.
      unfold day_bucket at 1.
      destruct (inherited (date o)) eqn:Ei; simpl.
      * rewrite own_get_update, String.eqb_refl, IH.
        unfold day_bucket. now rewrite Ei.
      * destruct (orders_of_day (date o) l) as [|o1 day] eqn:Ed; simpl.
        -- rewrite own_get_update, String.eqb_refl, own_get_add, IH.
           unfold day_bucket. now rewrite Ei, Ed, String.eqb_refl.
        -- rewrite own_get_update, String.eqb_refl, IH.
           unfold day_bucket. rewrite Ei, Ed. simpl.
           rewrite map_app, fold_left_app, length_app. simpl.
           do 2 f_equal; lia.
    + rewrite (day_bucket_snoc_other l o k Ek).
      assert (Ek' : String.eqb k (date o) = false).
      { rewrite String.eqb_sym. exact Ek. }
      unfold series_visit. rewrite own_get_update, Ek'.
      destruct (own_get bucket (date o)); simpl.
      * apply IH.
      * destruct (inherited (date o)); simpl.
        -- apply IH.
        -- rewrite own_get_add, IH, Ek'. now destruct (day_bucket l k).
Qed.

Lemma series_fold_keys (l : list (OrderRow num)) :
  NoDup (map fst (fold_left series_visit l [])).
Proof.
  induction l as [|o l IH] using rev_ind.
  - constructor.
  - rewrite fold_left_app. cbn [fold_left].
    set (bucket := fold_left series_visit l []) in *.
    unfold series_visit. rewrite own_update_keys.
    destruct (own_get bucket (date o)) eqn:Eg; simpl.
    + exact IH.
    + destruct (inherited (date o)); simpl; [exact IH |].
      unfold own_add. rewrite map_app. simpl.
      apply (Permutation_NoDup (Permutation_cons_append _ _)).
      constructor; [| exact IH]. now apply own_get_None.
Qed.

(** Every bucket sits under its own date. *)
Lemma series_fold_entry (l : list (OrderRow num)) (k : string) (b : DayBucket num) :
  In (k, b) (fold_left series_visit l []) <-> day_bucket l k = Some b.
Proof.
  rewrite <- series_fold_get. apply own_get_In, series_fold_keys.
Qed.

Lemma day_bucket_date (l : list (OrderRow num)) (k : string) (b : DayBucket num) :
  day_bucket l k = Some b -> db_date b = k.
Proof.
  unfold day_bucket. destruct (inherited k); [discriminate |].
  destruct (orders_of_day k l); [discriminate |].
  intros H. injection H as <-. reflexivity.
Qed.

Lemma series_fold_dates (l : list (OrderRow num)) :
  map (fun kv => db_date (snd kv)) (fold_left series_visit l [])
  = map fst (fold_left series_visit l []).
Proof.
  apply map_ext_in. intros [k b] Hin. simpl.
  apply series_fold_entry in Hin. now apply day_bucket_date in Hin.
Qed.

Section WithCollation.
Variable localeCompare : string -> string -> Z.

(** The returned array holds the buckets of the object, reordered. *)
Lemma timeSeries_perm (l : list (OrderRow num)) :
  Permutation (timeSeries localeCompare l)
              (map snd (fold_left series_visit l [])).
Proof.
  unfold timeSeries. rewrite sort_perm. apply Object_values_perm.
Qed.

Lemma timeSeries_In (l : list (OrderRow num)) (b : DayBucket num) :
  In b (timeSeries localeCompare l) <-> day_bucket l (db_date b) = Some b.
Proof.
  split.
  - intros Hin. apply (Permutation_in _ (timeSeries_perm l)) in Hin.
    apply in_map_iff in Hin. destruct Hin as [[k b'] [Eb Hin]].
    simpl in Eb. subst b'. apply series_fold_entry in Hin.
    now rewrite (day_bucket_date _ _ Hin).
  - intros Hb. apply (Permutation_in _ (Permutation_sym (timeSeries_perm l))).
    apply in_map_iff. exists (db_date b, b). split; [reflexivity |].
    now apply series_fold_entry.
Qed.

(** Bucket dates are pairwise distinct, whatever the dates and the
    collation are. *)
Lemma timeSeries_dates_NoDup (l : list (OrderRow num)) :
  NoDup (map (@db_date num) (timeSeries localeCompare l)).
Proof.
  apply (Permutation_NoDup
           (Permutation_sym (Permutation_map _ (timeSeries_perm l)))).
  rewrite map_map, series_fold_dates. apply series_fold_keys.
Qed.

End WithCollation.
End SeriesFacts.

(** Keys that are no calendar days show why the data model matters: an
    order dated [constructor] reaches no bucket, and integer-like keys are
    enumerated first. *)
Example series_skips_prototype_keys :
  timeSeries code_unit_compare
    [sample_order 1 "constructor" site delivered 5%float Null]
  = [].
Proof. reflexivity. Qed.

Example Object_values_integer_keys_first :
  map (@db_date float)
    (Object_values
       (fold_left series_visit
          [sample_order 1 "b" site delivered 1%float Null;
           sample_order 2 "10" site delivered 1%float Null;
           sample_order 3 "2" site delivered 1%float Null] []))
  = ["2"; "10"; "b"]%string.
Proof. reflexivity. Qed.

(** ** Calendar-day keys *)

Lemma inherited_initial (c : ascii) (s : string) :
  inherited (String c s) = true -> is_digit c = false.
Proof.
  destruct c as [[] [] [] [] [] [] [] []]; try reflexivity;
    intros H; vm_compute in H; discriminate H.
Qed.

(** A calendar-day string is never answered by [Object.prototype]. *)
Lemma iso_date_not_inherited (s : string) :
  iso_date s = true -> inherited s = false.
Proof.
  intros H. destruct s as [|c s]; [discriminate H |].
  destruct (inherited (String c s)) eqn:Ei; [| reflexivity].
  apply inherited_initial in Ei.
  do 9 (destruct s as [|? s]; [discriminate H |]).
  destruct s; [| discriminate H].
  simpl in H. rewrite Ei in H. discriminate H.
Qed.

Lemma code_unit_compare_collates : collates_iso code_unit_compare.
Proof.
  intros a b _ _. unfold code_unit_compare.
  now destruct (a ?= b)%string.
Qed.

(** ** The code-unit order on strings *)

Lemma string_lt_trans (a b c : string) :
  (a ?= b)%string = Lt -> (b ?= c)%string = Lt -> (a ?= c)%string = Lt.
Proof.
  intros Hab Hbc. apply String_as_OT.cmp_lt.
  apply String_as_OT.lt_trans with b; now apply String_as_OT.cmp_lt.
Qed.

Lemma string_leb_trans (a b c : string) :
  String.leb a b = true -> String.leb b c = true -> String.leb a c = true.
Proof.
  unfold String.leb. intros Hab Hbc.
  destruct (a ?= b)%string eqn:Eab; try discriminate Hab.
  - apply String.compare_eq_iff in Eab. now subst b.
  - destruct (b ?= c)%string eqn:Ebc; try discriminate Hbc.
    + apply String.compare_eq_iff in Ebc. subst c. now rewrite Eab.
    + now rewrite (string_lt_trans _ _ _ Eab Ebc).
Qed.

Lemma string_leb_neq_lt (a b : string) :
  String.leb a b = true -> a <> b -> (a ?= b)%string = Lt.
Proof.
  unfold String.leb. intros Hab Hne.
  destruct (a ?= b)%string eqn:Eab; try discriminate Hab; [| reflexivity].
  apply String.compare_eq_iff in Eab. contradiction.
Qed.

(** A non-decreasing list without repetition is strictly increasing. *)
Lemma nondecreasing_NoDup_increasing (l : list string) :
  Sorted (fun a b => String.leb a b = true) l ->
  NoDup l ->
  StronglySorted (fun a b => (a ?= b)%string = Lt) l.
Proof.
  intros S ND.
  apply Sorted_StronglySorted in S;
    [| intros a b c; apply string_leb_trans].
  induction S as [|a l S IH Ha]; constructor.
  - apply IH. now inversion ND.
  - inversion ND as [|? ? Hnotin ND']; subst.
    rewrite Forall_forall in *. intros b Hb.
    apply string_leb_neq_lt; [now apply Ha |].
    intros ->. contradiction.
Qed.

Lemma Sorted_map_on {A B : Type} (f : A -> B) (P : A -> Prop)
  (R : A -> A -> Prop) (R' : B -> B -> Prop) (l : list A) :
  (forall x y, P x -> P y -> R x y -> R' (f x) (f y)) ->
  Forall P l -> Sorted R l -> Sorted R' (map f l).
Proof.
  intros HR Pl S. induction S as [|x l S IH Hd]; simpl.
  - constructor.
  - inversion Pl as [|? ? Px Pl']; subst. constructor.
    + now apply IH.
    + destruct Hd as [|y l' Hxy]; simpl; constructor.
      inversion Pl' as [|? ? Py _]; subst. now apply HR.
Qed.

(** ** Grouping and order of the time series *)

Section SeriesOrder.
Context {num : Type} {N : Number num}.
Variable localeCompare : string -> string -> Z.
Hypothesis collation : collates_iso localeCompare.

Lemma timeSeries_iso (l : list (OrderRow num)) :
  iso_dated l ->
  Forall (fun b => iso_date (db_date b) = true) (Object_values (fold_left series_visit l [])).
Proof.
  intros Hl. apply Forall_forall. intros b Hb.
  apply (Permutation_in _ (Object_values_perm _)) in Hb.
  apply in_map_iff in Hb. destruct Hb as [[k b'] [Eb Hin]].
  simpl in Eb. subst b'. apply series_fold_entry in Hin.
  rewrite (day_bucket_date _ _ Hin).
  unfold day_bucket in Hin. destruct (inherited k); [discriminate |].
  destruct (orders_of_day k l) as [|o day] eqn:Ed; [discriminate |].
  assert (Ho : In o (orders_of_day k l)) by (rewrite Ed; now left).
  apply filter_In in Ho. destruct Ho as [Ho Ek].
  apply String.eqb_eq in Ek. subst k.
  unfold iso_dated in Hl. rewrite Forall_forall in Hl. now apply Hl.
Qed.

Lemma timeSeries_nondecreasing (l : list (OrderRow num)) :
  iso_dated l ->
  Sorted (fun a b => String.leb a b = true)
         (map (@db_date num) (timeSeries localeCompare l)).
Proof.
  intros Hl. pose proof (timeSeries_iso Hl) as Hiso.
  set (cmp := fun a b : DayBucket num =>
                localeCompare (db_date a) (db_date b)).
  set (P := fun b : DayBucket num => iso_date (db_date b) = true) in *.
  assert (Htotal : forall x y, P x -> P y ->
                     (cmp x y > 0)%Z -> (cmp y x <= 0)%Z).
  { intros x y Px Py Hgt. unfold cmp in *.
    pose proof (collation _ _ Px Py) as Hxy.
    pose proof (collation _ _ Py Px) as Hyx.
    rewrite String.compare_antisym, <- Hxy in Hyx.
    apply Z.gt_lt, Z.compare_gt_iff in Hgt. rewrite Hgt in Hyx.
    simpl in Hyx. rewrite Z.compare_lt_iff in Hyx. lia. }
  apply (@Sorted_map_on _ _ (@db_date num) P (fun a b => (cmp a b <= 0)%Z)).
  - intros x y Px Py Hle. unfold String.leb.
    rewrite <- (collation _ _ Px Py). fold (cmp x y).
    destruct (cmp x y ?= 0)%Z eqn:Ec; try reflexivity.
    apply Z.compare_gt_iff in Ec. lia.
  - apply Forall_forall. intros b Hb. rewrite Forall_forall in Hiso.
    apply Hiso. now apply (Permutation_in _ (sort_perm cmp _)).
  - unfold timeSeries. fold cmp. now apply (@sort_sorted _ cmp P Htotal).
Qed.

(** C7: for orders dated by calendar-day strings, the time-series reducer
    groups the orders by date string: every bucket stands for a day that
    has orders and carries the day's amounts, added in list order, and
    the number of its orders; every order's day has a bucket; and the
    dates of the returned list are non-decreasing (in fact strictly
    increasing) in the code-unit lexicographic order. *)
Theorem timeSeries_grouped_sorted (l : list (OrderRow num)) :
  iso_dated l ->
  let ts := timeSeries localeCompare l in
  (forall b, In b ts ->
     let day := orders_of_day (db_date b) l in
     day <> []
     /\ db_amount b = fold_left nadd (map (@amount num) day) nzero
     /\ db_count b = List.length day)
  /\ (forall o, In o l -> In (date o) (map (@db_date num) ts))
  /\ Sorted (fun a b => String.leb a b = true) (map (@db_date num) ts)
  /\ StronglySorted (fun a b => (a ?= b)%string = Lt) (map (@db_date num) ts).
Proof.
  intros Hl ts. split; [| split; [| split]].
  - intros b Hb day. apply timeSeries_In in Hb.
    unfold day_bucket in Hb. fold day in Hb.
    destruct (inherited (db_date b)); [discriminate |].
    destruct day as [|o day']; [discriminate |].
    injection Hb as Hb. rewrite <- Hb. simpl. repeat split. discriminate.
  - intros o Ho.
    assert (Hiso : iso_date (date o) = true).
    { unfold iso_dated in Hl. rewrite Forall_forall in Hl. now apply Hl. }
    assert (Hday : In o (orders_of_day (date o) l)).
    { apply filter_In. split; [exact Ho | apply String.eqb_refl]. }
    destruct (day_bucket l (date o)) as [b|] eqn:Eb.
    + apply in_map_iff. exists b. split.
      * now apply day_bucket_date in Eb.
      * apply timeSeries_In. now rewrite (day_bucket_date _ _ Eb).
    + unfold day_bucket in Eb.
      rewrite (iso_date_not_inherited _ Hiso) in Eb.
      destruct (orders_of_day (date o) l); [contradiction | discriminate].
  - now apply timeSeries_nondecreasing.
  - apply nondecreasing_NoDup_increasing.
    + now apply timeSeries_nondecreasing.
    + apply timeSeries_dates_NoDup.
Qed.

End SeriesOrder.

(** ** The time series against the totals *)

Section SeriesSums.
Context {num : Type} {N : Number num}.
Implicit Types (obj bucket : JsObject (DayBucket num)) (o : OrderRow num).

Lemma own_update_count obj (k : string) (f : DayBucket num -> DayBucket num) :
  (forall v, db_count (f v) = db_count v + 1) ->
  own_get obj k <> None ->
  list_sum (map (fun kv => db_count (snd kv)) (own_update obj k f))
  = list_sum (map (fun kv => db_count (snd kv)) obj) + 1.
Proof.
  intros Hf. induction obj as [|[k0 v0] obj IH]; simpl; intros Hk.
  - contradiction.
  - destruct (String.eqb k k0); simpl.
    + rewrite Hf. lia.
    + rewrite (IH Hk). lia.
Qed.

Lemma series_visit_count bucket o :
  inherited (date o) = false ->
  list_sum (map (fun kv => db_count (snd kv)) (series_visit bucket o))
  = list_sum (map (fun kv => db_count (snd kv)) bucket) + 1.
Proof.
  intros Hi. unfold series_visit. rewrite Hi.
  destruct (own_get bucket (date o)) eqn:Eg; simpl.
  - rewrite own_update_count; [reflexivity | reflexivity | congruence].
  - rewrite own_update_count; [| reflexivity |].
    + unfold own_add. rewrite map_app, list_sum_app. simpl. lia.
    + rewrite own_get_add, Eg, String.eqb_refl. discriminate.
Qed.

Lemma series_fold_count (l : list (OrderRow num)) bucket :
  Forall (fun o => inherited (date o) = false) l ->
  list_sum (map (fun kv => db_count (snd kv)) (fold_left series_visit l bucket))
  = list_sum (map (fun kv => db_count (snd kv)) bucket) + List.length l.
Proof.
  intros Hl. revert bucket.
  induction Hl as [|o l Ho _ IH]; intros bucket; simpl.
  - lia.
  - rewrite IH, series_visit_count by exact Ho. lia.
Qed.

Context {E : ExactNumber num}.

Lemma own_update_amount obj (k : string) (f : DayBucket num -> DayBucket num)
  (x : num) :
  (forall v, db_amount (f v) = nadd (db_amount v) x) ->
  own_get obj k <> None ->
  sum_amounts (map (fun kv => db_amount (snd kv)) (own_update obj k f))
  = nadd (sum_amounts (map (fun kv => db_amount (snd kv)) obj)) x.
Proof.
  intros Hf. induction obj as [|[k0 v0] obj IH]; simpl; intros Hk.
  - contradiction.
  - destruct (String.eqb k k0); simpl; rewrite !sum_amounts_cons.
    + rewrite Hf. apply nadd_assoc.
    + rewrite (IH Hk). apply nadd_right_comm.
Qed.

Lemma series_visit_amount bucket o :
  inherited (date o) = false ->
  sum_amounts (map (fun kv => db_amount (snd kv)) (series_visit bucket o))
  = nadd (sum_amounts (map (fun kv => db_amount (snd kv)) bucket)) (amount o).
Proof.
  intros Hi. unfold series_visit. rewrite Hi.
  destruct (own_get bucket (date o)) eqn:Eg; simpl.
  - rewrite (own_update_amount _ _ _ (amount o));
      [reflexivity | reflexivity | congruence].
  - rewrite (own_update_amount _ _ _ (amount o)); [| reflexivity |].
    + unfold own_add. rewrite map_app, sum_amounts_app. simpl.
      unfold sum_amounts at 2. simpl. now rewrite nadd_zero_l, nadd_zero_r.
    + rewrite own_get_add, Eg, String.eqb_refl. discriminate.
Qed.

Lemma series_fold_amount (l : list (OrderRow num)) bucket :
  Forall (fun o => inherited (date o) = false) l ->
  sum_amounts (map (fun kv => db_amount (snd kv))
                   (fold_left series_visit l bucket))
  = nadd (sum_amounts (map (fun kv => db_amount (snd kv)) bucket))
         (sum_amounts (map (@amount num) l)).
Proof.
  intros Hl. revert bucket.
  induction Hl as [|o l Ho _ IH]; intros bucket; simpl.
  - unfold sum_amounts at 3. simpl. now rewrite nadd_zero_r.
  - rewrite IH, series_visit_amount by exact Ho.
    rewrite sum_amounts_cons, nadd_assoc. apply nadd_right_comm.
Qed.

End SeriesSums.

Lemma iso_dated_not_inherited {num : Type} (l : list (OrderRow num)) :
  iso_dated l -> Forall (fun o => inherited (date o) = false) l.
Proof.
  apply Forall_impl. intros o. apply iso_date_not_inherited.
Qed.

(** On a number type whose addition is exact and for orders dated by
    calendar-day strings, the time-series buckets partition the orders:
    counts and amounts both sum to the totals. *)
Lemma timeSeries_partition {num : Type} {N : Number num}
  (localeCompare : string -> string -> Z) (l : list (OrderRow num)) :
  iso_dated l ->
  let ts := timeSeries localeCompare l in
  NoDup (map (@db_date num) ts)
  /\ list_sum (map (@db_count num) ts) = orderCount (totals l)
  /\ (ExactNumber num ->
      sum_amounts (map (@db_amount num) ts) = totalAmount (totals l)).
Proof.
  intros Hl ts. subst ts. apply iso_dated_not_inherited in Hl.
  split; [| split].
  - apply timeSeries_dates_NoDup.
  - rewrite (list_sum_perm (Permutation_map _ (timeSeries_perm localeCompare l))).
    rewrite map_map, (series_fold_count _ Hl). reflexivity.
  - intros E.
    rewrite (sum_amounts_perm
               (Permutation_map _ (timeSeries_perm localeCompare l))).
    rewrite map_map, (series_fold_amount _ Hl). simpl.
    unfold totals. cbn [totalAmount]. now rewrite total_fold_amounts.
Qed.

Lemma decimal_orders_iso : iso_dated decimal_orders.
Proof.
  repeat constructor.
Qed.

Lemma rounding_orders_iso : iso_dated rounding_orders.
Proof.
  repeat constructor.
Qed.

(** C7, witness: the three sample orders under code-unit collation. *)
Lemma timeSeries_grouped_sorted_sample :
  let ts := timeSeries code_unit_compare decimal_orders in
  (forall b, In b ts ->
     let day := orders_of_day (db_date b) decimal_orders in
     day <> []
     /\ db_amount b = fold_left nadd (map (@amount Qc) day) nzero
     /\ db_count b = List.length day)
  /\ (forall o, In o decimal_orders -> In (date o) (map (@db_date Qc) ts))
  /\ Sorted (fun a b => String.leb a b = true) (map (@db_date Qc) ts)
  /\ StronglySorted (fun a b => (a ?= b)%string = Lt) (map (@db_date Qc) ts).
Proof.
  exact (@timeSeries_grouped_sorted Qc decimal code_unit_compare
           code_unit_compare_collates decimal_orders decimal_orders_iso).
Defined.

(** The three sample orders with exact decimal amounts. *)
Lemma timeSeries_partition_sample :
  let ts := timeSeries code_unit_compare decimal_orders in
  NoDup (map (@db_date Qc) ts)
  /\ list_sum (map (@db_count Qc) ts) = orderCount (totals decimal_orders)
  /\ sum_amounts (map (@db_amount Qc) ts) = totalAmount (totals decimal_orders).
Proof.
  destruct (@timeSeries_partition Qc decimal code_unit_compare decimal_orders
              decimal_orders_iso) as [Hdates [Hcounts Hamounts]].
  split; [exact Hdates | split; [exact Hcounts | exact (Hamounts decimal_exact)]].
Defined.

(** C10, counterexample: on doubles the bucket amounts need not sum to
    the total.  The sample orders give the buckets 2024-03-01 with
    [0.1 + 2.2 = 2.3000000000000003] and 2024-03-02 with [0.2], which sum
    to [2.5000000000000004], while [totalAmount] is [2.5]. *)
Lemma timeSeries_amounts_rounding :
  ~ (forall (localeCompare : string -> string -> Z)
            (l : list (OrderRow float)),
       collates_iso localeCompare -> iso_dated l ->
       let ts := timeSeries localeCompare l in
       NoDup (map (@db_date float) ts)
       /\ sum_amounts (map (@db_amount float) ts) = totalAmount (totals l)
       /\ list_sum (map (@db_count float) ts) = orderCount (totals l)).
Proof.
  intros H.
  destruct (H code_unit_compare rounding_orders code_unit_compare_collates
              rounding_orders_iso) as [_ [Hsum _]].
  revert Hsum. apply float_neq; vm_compute; reflexivity.
Qed.

(** *** Orders that reach no bucket *)

Section SeriesSkips.
Context {num : Type} {N : Number num}.

(** An order whose date names a member of [Object.prototype] leaves the
    object as it is. *)
Lemma series_visit_inherited (bucket : JsObject (DayBucket num))
  (o : OrderRow num) :
  Forall (fun k => inherited k = false) (map fst bucket) ->
  inherited (date o) = true ->
  series_visit bucket o = bucket.
Proof.
  intros Hkeys Hi. unfold series_visit.
  assert (Hg : own_get bucket (date o) = None).
  { destruct (own_get bucket (date o)) as [b|] eqn:Eg; [|reflexivity].
    exfalso. assert (Hin : In (date o) (map fst bucket)).
    { destruct (in_dec string_dec (date o) (map fst bucket)) as [H|H];
        [exact H | apply own_get_None in H; congruence]. }
    rewrite Forall_forall in Hkeys. rewrite (Hkeys _ Hin) in Hi. discriminate. }
  rewrite Hg, Hi. simpl. apply own_update_absent. exact Hg.
Qed.

Lemma series_visit_own_keys (bucket : JsObject (DayBucket num))
  (o : OrderRow num) :
  Forall (fun k => inherited k = false) (map fst bucket) ->
  Forall (fun k => inherited k = false) (map fst (series_visit bucket o)).
Proof.
  intros Hkeys. unfold series_visit. rewrite own_update_keys.
  destruct (own_get bucket (date o)); simpl; [exact Hkeys |].
  destruct (inherited (date o)) eqn:Hi; simpl; [exact Hkeys |].
  unfold own_add. rewrite map_app. apply Forall_app. split; [exact Hkeys |].
  simpl. constructor; [exact Hi | constructor].
Qed.

Lemma series_fold_skips (l : list (OrderRow num))
  (bucket : JsObject (DayBucket num)) :
  Forall (fun k => inherited k = false) (map fst bucket) ->
  fold_left series_visit l bucket
  = fold_left series_visit
      (filter (fun o => negb (inherited (date o))) l) bucket.
Proof.
  revert bucket. induction l as [|o l IH]; intros bucket Hkeys; simpl.
  - reflexivity.
  - destruct (inherited (date o)) eqn:Hi; simpl.
    + rewrite (series_visit_inherited bucket o Hkeys Hi). now apply IH.
    + apply IH. now apply series_visit_own_keys.
Qed.

(** The bucket counts sum to the number of orders that reach a bucket. *)
Lemma timeSeries_counts (localeCompare : string -> string -> Z)
  (l : list (OrderRow num)) :
  list_sum (map (@db_count num) (timeSeries localeCompare l))
  = List.length (filter (fun o => negb (inherited (date o))) l).
Proof.
  rewrite (list_sum_perm (Permutation_map _ (timeSeries_perm localeCompare l))).
  rewrite map_map, series_fold_skips by constructor.
  rewrite series_fold_count; [reflexivity |].
  apply Forall_forall. intros o Ho. apply filter_In in Ho.
  destruct Ho as [_ Ho]. now destruct (inherited (date o)).
Qed.

Lemma filter_all {A : Type} (f : A -> bool) (l : list A) :
  Forall (fun x => f x = true) l -> filter f l = l.
Proof.
  induction 1 as [|x l Hx _ IH]; simpl; [reflexivity |].
  now rewrite Hx, IH.
Qed.

End SeriesSkips.

(** *** Sums over the days *)

Lemma Zsum_map_add {A : Type} (g h : A -> Z) (l : list A) :
  Zsum (map (fun x => g x + h x)%Z l) = (Zsum (map g l) + Zsum (map h l))%Z.
Proof.
  unfold Zsum. induction l as [|x l IH]; simpl; lia.
Qed.

Lemma Zsum_indicator (k : string) (x : Z) (D : list string) :
  NoDup D -> In k D ->
  Zsum (map (fun d => if String.eqb k d then x else 0%Z) D) = x.
Proof.
  unfold Zsum. induction 1 as [|d D Hd _ IH]; intros Hin; simpl.
  - contradiction.
  - destruct (String.eqb k d) eqn:Ek.
    + apply String.eqb_eq in Ek. subst d.
      assert (Hz : fold_right Z.add 0%Z
                     (map (fun d => if String.eqb k d then x else 0%Z) D) = 0%Z).
      { clear IH Hin. induction D as [|d D IH]; simpl; [reflexivity |].
        destruct (String.eqb k d) eqn:Ek.
        - apply String.eqb_eq in Ek. subst d. exfalso. apply Hd. now left.
        - rewrite IH; [reflexivity |]. intros H. apply Hd. now right. }
      rewrite Hz. lia.
    + destruct Hin as [<-|Hin]; [now rewrite String.eqb_refl in Ek |].
      rewrite (IH Hin). lia.
Qed.

(** Summing day by day over pairwise distinct days that cover the orders
    is summing over the orders. *)
Lemma Zsum_by_day {num : Type} (f : OrderRow num -> Z)
  (l : list (OrderRow num)) (D : list string) :
  NoDup D -> (forall o, In o l -> In (date o) D) ->
  Zsum (map (fun d => Zsum (map f (orders_of_day d l))) D) = Zsum (map f l).
Proof.
  intros HD. induction l as [|o l IH]; intros Hcover.
  - unfold Zsum. simpl. clear HD Hcover.
    induction D as [|d D IHD]; simpl; [reflexivity | exact IHD].
  - rewrite (map_ext _ (fun d => (if String.eqb (date o) d then f o else 0)
                                 + Zsum (map f (orders_of_day d l)))%Z).
    + rewrite Zsum_map_add, IH, Zsum_indicator.
      * reflexivity.
      * exact HD.
      * apply Hcover. now left.
      * intros o' Ho'. apply Hcover. now right.
    + intros d. unfold orders_of_day. simpl.
      destruct (String.eqb (date o) d); reflexivity.
Qed.

(** *** The time series on doubles that add without rounding *)

Section SeriesUnrounded.
Variable localeCompare : string -> string -> Z.
Variable l : list (OrderRow float).
Hypothesis dated : Forall (fun o => inherited (date o) = false) l.
Hypothesis days_exact :
  forall o, In o l ->
    sums_exactly 0 (map (@amount float) (orders_of_day (date o) l)) = true.

Lemma day_bucket_value (b : DayBucket float) :
  In b (timeSeries localeCompare l) ->
  value_of (db_amount b)
  = Zsum (map (fun o => value_of (amount o)) (orders_of_day (db_date b) l)).
Proof.
  intros Hb. apply timeSeries_In in Hb. unfold day_bucket in Hb.
  destruct (inherited (db_date b)); [discriminate |].
  destruct (orders_of_day (db_date b) l) as [|o day] eqn:Eday; [discriminate |].
  assert (Ho : In o l /\ String.eqb (date o) (db_date b) = true).
  { apply (proj1 (filter_In (fun o => String.eqb (date o) (db_date b)) o l)).
    fold (orders_of_day (db_date b) l). rewrite Eday. now left. }
  destruct Ho as [Ho Ed]. apply String.eqb_eq in Ed.
  pose proof (days_exact o Ho) as Hx. rewrite Ed, Eday in Hx.
  pose proof (f_equal (fun x => match x with
                                | Some y => db_amount y
                                | None => nzero
                                end) Hb) as Ha.
  cbn [db_amount] in Ha. rewrite <- Ha. unfold value_of at 1.
  change (fold_left nadd ?xs nzero) with (sum_amounts xs).
  rewrite (sum_amounts_value _ Hx), map_map. reflexivity.
Qed.

Lemma timeSeries_covers (o : OrderRow float) :
  In o l -> In (date o) (map (@db_date float) (timeSeries localeCompare l)).
Proof.
  intros Ho.
  assert (Hi : inherited (date o) = false).
  { rewrite Forall_forall in dated. now apply dated. }
  destruct (day_bucket l (date o)) as [b|] eqn:Eb.
  - apply in_map_iff. exists b.
    pose proof (day_bucket_date _ _ Eb) as Ed. split; [exact Ed |].
    apply timeSeries_In. now rewrite Ed.
  - exfalso. unfold day_bucket in Eb. rewrite Hi in Eb.
    destruct (orders_of_day (date o) l) as [|o1 day] eqn:Eday; [|discriminate].
    assert (Hin : In o (orders_of_day (date o) l)).
    { apply filter_In. split; [exact Ho | apply String.eqb_refl]. }
    now rewrite Eday in Hin.
Qed.

Lemma timeSeries_amounts_value :
  Zsum (map value_of (map (@db_amount float) (timeSeries localeCompare l)))
  = Zsum (map (fun o => value_of (amount o)) l).
Proof.
  rewrite map_map.
  rewrite (map_ext_in _
             (fun b => Zsum (map (fun o => value_of (amount o))
                                 (orders_of_day (db_date b) l)))
             _ day_bucket_value).
  rewrite <- (map_map (@db_date float)
                (fun d => Zsum (map (fun o => value_of (amount o))
                                    (orders_of_day d l)))).
  apply Zsum_by_day.
  - apply timeSeries_dates_NoDup.
  - apply timeSeries_covers.
Qed.

End SeriesUnrounded.

(** C10 (as corrected): the time-series buckets have pairwise distinct
    dates, and their counts sum to the number of orders whose date does
    not name a member of [Object.prototype]: to [totals.orderCount] when
    no date does, as with calendar days.  On doubles the bucket amounts
    then sum to [totals.totalAmount], the same double and so equal for
    [===], whenever none of the additions involved rounds: those of the
    grand total, those of each day's bucket and those of summing the
    buckets. *)
Theorem timeSeries_partition_unrounded (localeCompare : string -> string -> Z)
  (l : list (OrderRow float)) :
  let ts := timeSeries localeCompare l in
  NoDup (map (@db_date float) ts)
  /\ list_sum (map (@db_count float) ts)
     = List.length (filter (fun o => negb (inherited (date o))) l)
  /\ (Forall (fun o => inherited (date o) = false) l ->
      list_sum (map (@db_count float) ts) = orderCount (totals l)
      /\ (sums_exactly 0 (map (@amount float) l) = true ->
          (forall o, In o l ->
             sums_exactly 0 (map (@amount float) (orders_of_day (date o) l))
             = true) ->
          sums_exactly 0 (map (@db_amount float) ts) = true ->
          sum_amounts (map (@db_amount float) ts) = totalAmount (totals l)
          /\ PrimFloat.eqb (sum_amounts (map (@db_amount float) ts))
                           (totalAmount (totals l)) = true)).
Proof.
  intros ts. subst ts. split; [| split].
  - apply timeSeries_dates_NoDup.
  - apply timeSeries_counts.
  - intros Hdated. split.
    + rewrite timeSeries_counts, filter_all; [reflexivity |].
      revert Hdated. apply Forall_impl. intros o Ho. now rewrite Ho.
    + intros Htotal Hdays Hbuckets. rewrite totalAmount_sum.
      apply sum_amounts_same; [exact Hbuckets | exact Htotal |].
      rewrite (timeSeries_amounts_value localeCompare Hdated Hdays).
      now rewrite map_map.
Qed.

(** C10, witness: three orders on doubles, with the amounts 0.5 and 2 on
    2024-03-01 and 0.25 on 2024-03-02. *)
Lemma timeSeries_partition_unrounded_sample :
  let ts := timeSeries code_unit_compare unrounded_orders in
  NoDup (map (@db_date float) ts)
  /\ list_sum (map (@db_count float) ts) = 3
  /\ list_sum (map (@db_count float) ts) = orderCount (totals unrounded_orders)
  /\ sum_amounts (map (@db_amount float) ts)
     = totalAmount (totals unrounded_orders)
  /\ PrimFloat.eqb (sum_amounts (map (@db_amount float) ts))
                   (totalAmount (totals unrounded_orders)) = true.
Proof.
  destruct (timeSeries_partition_unrounded code_unit_compare unrounded_orders)
    as [Hdates [Hcount Hsums]].
  assert (Hdated : Forall (fun o => inherited (date o) = false) unrounded_orders)
    by (repeat constructor).
  destruct (Hsums Hdated) as [Hcounts Hamounts].
  split; [exact Hdates | split; [exact Hcount | split; [exact Hcounts |]]].
  apply Hamounts.
  - vm_compute; reflexivity.
  - intros o [<-|[<-|[<-|[]]]]; vm_compute; reflexivity.
  - vm_compute; reflexivity.
Defined.

(** ** The order fetcher *)

Section FetcherFacts.
Import Fetcher.
Context {num : Type}.


(** X12: the other path.  On an ok response whose success flag is true
    the held list is replaced by the reply's data, whatever was held; the
    old message is cleared and none is set; the setters are called in the
    order loading, error, orders, loading. *)
Lemma fetchOrders_success (r : ApiResult num) (v : View num) :
  success r = true ->
  fetchOrders (Responds true (JsonObject r)) v
  = (Normal tt,
     {| orders := data r; loading := false; error := None |},
     [SetLoading true; SetError None; SetOrders (data r); SetLoading false]).
Proof.
  intros Hs. unfold fetchOrders, bind, try_finally, try_catch. simpl.
  rewrite Hs. reflexivity.
Qed.

(** X21: the messages that the component words itself.  A non-ok
    response shows the fixed text; a false success flag shows the server's
    message, or the fixed fallback when that message is missing or empty.
    Neither is ever the empty string, so the banner is rendered. *)
Lemma fetchOrders_own_messages (v : View num) :
  (forall body : JsonOutcome num,
     error (snd (fst (fetchOrders (Responds false body) v)))
     = Some "Failed to fetch reports data"%string)
  /\ (forall r : ApiResult num,
        success r = false ->
        exists msg,
          error (snd (fst (fetchOrders (Responds true (JsonObject r)) v)))
          = Some msg
          /\ msg = message_or_default (message r)
          /\ truthy_string msg = true).
Proof.
  split.
  - intros body. reflexivity.
  - intros r Hr. exists (message_or_default (message r)).
    unfold fetchOrders, bind, try_finally, try_catch. simpl. rewrite Hr. simpl.
    repeat split. unfold message_or_default.
    destruct (message r) as [m|]; [| reflexivity].
    destruct (truthy_string m) eqn:Em; [exact Em | reflexivity].
Qed.

End FetcherFacts.



(** ** The CSV export *)

Lemma split_lines_plain (s : string) :
  has_line_feed s = false -> split_lines s = [s].
Proof.
  induction s as [|c s IH]; simpl; intros H.
  - reflexivity.
  - apply orb_false_iff in H. destruct H as [Hc Hs].
    rewrite Hc, (IH Hs). reflexivity.
Qed.

Lemma split_lines_append (s rest : string) :
  has_line_feed s = false ->
  split_lines (s ++ String line_feed rest) = s :: split_lines rest.
Proof.
  induction s as [|c s IH]; simpl; intros H.
  - reflexivity.
  - apply orb_false_iff in H. destruct H as [Hc Hs].
    rewrite Hc, (IH Hs). reflexivity.
Qed.

(** Splitting at line feeds undoes joining with line feeds. *)
Lemma split_lines_join (parts : list string) :
  parts <> [] ->
  Forall (fun p => has_line_feed p = false) parts ->
  split_lines (join (String line_feed EmptyString) parts) = parts.
Proof.
  unfold join. intros Hne Hparts.
  induction Hparts as [|p parts Hp Hparts IH]; [contradiction |].
  destruct parts as [|q parts].
  - simpl. now apply split_lines_plain.
  - change (String.concat (String line_feed EmptyString) (p :: q :: parts))
      with (p ++ String line_feed
                   (String.concat (String line_feed EmptyString) (q :: parts)))%string.
    rewrite (split_lines_append _ _ Hp), IH; [reflexivity | discriminate].
Qed.

Section ExportFacts.
Context {num : Type} {N : Number num}.
Variable toFixed : num -> nat -> string.

(** The array that is serialised: the fixed header row of six columns
    followed by one row of six fields per order, in order. *)
Lemma exportCSV_rows (l : list (OrderRow num)) :
  let table := csv_table toFixed l in
  hd_error table
  = Some ["Tarih"; "Kanal"; "Durum"; "Tutar"; "Müşteri"; "Kargo Fişi"]%string
  /\ tl table = map (csv_row toFixed) l
  /\ List.length table = List.length l + 1
  /\ Forall (fun row => List.length row = 6) table
  /\ exportCSV toFixed l
     = join (String line_feed EmptyString)
            (map (fun row => join ";" row) table).
Proof.
  simpl. repeat split.
  - rewrite length_map. lia.
  - constructor; [reflexivity |].
    apply Forall_forall. intros row Hrow.
    apply in_map_iff in Hrow. destruct Hrow as [o [<- _]]. reflexivity.
Qed.

(** X9: fields are written as they are.  As long as no row contains a
    line feed, the text splits at line feeds into exactly the rows of the
    table, one line per order after the header line. *)
Lemma exportCSV_lines (l : list (OrderRow num)) :
  Forall (fun row => has_line_feed (join ";" row) = false)
         (csv_table toFixed l) ->
  split_lines (exportCSV toFixed l)
  = map (fun row => join ";" row) (csv_table toFixed l)
  /\ List.length (split_lines (exportCSV toFixed l)) = List.length l + 1.
Proof.
  intros Hrows.
  assert (Hsplit : split_lines (exportCSV toFixed l)
                   = map (fun row => join ";" row) (csv_table toFixed l)).
  { unfold exportCSV. apply split_lines_join.
    - discriminate.
    - now apply Forall_map. }
  split; [exact Hsplit |].
  rewrite Hsplit, length_map. simpl. rewrite length_map. lia.
Qed.

End ExportFacts.

(** *** Reading the text back *)

Lemma has_line_feed_char (s : string) : has_line_feed s = has_char line_feed s.
Proof.
  induction s as [|c s IH]; simpl; [reflexivity | now rewrite IH].
Qed.

Lemma has_char_append (sep : ascii) (s t : string) :
  has_char sep (s ++ t) = has_char sep s || has_char sep t.
Proof.
  induction s as [|c s IH]; simpl; [reflexivity |].
  now rewrite IH, orb_assoc.
Qed.

Lemma split_on_plain (sep : ascii) (s : string) :
  has_char sep s = false -> split_on sep s = [s].
Proof.
  induction s as [|c s IH]; simpl; intros H.
  - reflexivity.
  - apply orb_false_iff in H. destruct H as [Hc Hs].
    rewrite Hc, (IH Hs). reflexivity.
Qed.

Lemma split_on_append (sep : ascii) (s rest : string) :
  has_char sep s = false ->
  split_on sep (s ++ String sep rest) = s :: split_on sep rest.
Proof.
  induction s as [|c s IH]; simpl; intros H.
  - now rewrite Ascii.eqb_refl.
  - apply orb_false_iff in H. destruct H as [Hc Hs].
    rewrite Hc, (IH Hs). reflexivity.
Qed.

(** Splitting at a separator undoes joining with it. *)
Lemma split_on_join (sep : ascii) (parts : list string) :
  parts <> [] ->
  Forall (fun p => has_char sep p = false) parts ->
  split_on sep (join (String sep EmptyString) parts) = parts.
Proof.
  unfold join. intros Hne Hparts.
  induction Hparts as [|p parts Hp Hparts IH]; [contradiction |].
  destruct parts as [|q parts].
  - simpl. now apply split_on_plain.
  - change (String.concat (String sep EmptyString) (p :: q :: parts))
      with (p ++ String sep
                   (String.concat (String sep EmptyString) (q :: parts)))%string.
    rewrite (split_on_append sep _ _ Hp), IH; [reflexivity | discriminate].
Qed.

Section ExportText.
Context {num : Type} {N : Number num}.
Variable toFixed : num -> nat -> string.

Lemma csv_row_free_of (sep : ascii) (o : OrderRow num) :
  sep = line_feed \/ sep = ";"%char ->
  fields_free_of toFixed sep o ->
  Forall (fun p => has_char sep p = false) (csv_row toFixed o).
Proof.
  intros Hsep (Hd & Ha & Hc). unfold csv_row.
  repeat constructor; try assumption.
  - destruct Hsep as [-> | ->]; now destruct (channel o).
  - destruct Hsep as [-> | ->]; now destruct (status o).
  - destruct Hsep as [-> | ->]; now destruct (truthy (cargoSlipPrintedAt o)).
Qed.

Lemma has_char_join (sep c : ascii) (parts : list string) :
  Ascii.eqb c sep = false ->
  Forall (fun p => has_char sep p = false) parts ->
  has_char sep (join (String c EmptyString) parts) = false.
Proof.
  unfold join. intros Hc Hparts.
  induction Hparts as [|p parts Hp Hparts IH]; [reflexivity |].
  destruct parts as [|q parts]; [exact Hp |].
  change (String.concat (String c EmptyString) (p :: q :: parts))
    with (p ++ String c
                 (String.concat (String c EmptyString) (q :: parts)))%string.
  rewrite has_char_append, Hp. cbn [has_char orb]. now rewrite Hc, IH.
Qed.

(** C6 (as corrected): fields are written as they are.  Whenever no date,
    formatted amount or customer name holds a line feed, the exported text
    has one line more than there are orders: the header line
    [Tarih;Kanal;Durum;Tutar;Müşteri;Kargo Fişi], then one line per order,
    in order, made of its six fields joined by semicolons.  Whenever these
    fields hold no semicolon either, every line reads back as exactly six
    columns. *)
Theorem exportCSV_reads_back (l : list (OrderRow num)) :
  Forall (fields_free_of toFixed line_feed) l ->
  let lines := split_lines (exportCSV toFixed l) in
  lines
  = "Tarih;Kanal;Durum;Tutar;Müşteri;Kargo Fişi"%string
    :: map (fun o =>
              date o ++ ";" ++ CHANNEL_LABELS (channel o) ++ ";"
              ++ STATUS_LABELS (status o) ++ ";" ++ toFixed (amount o) 2
              ++ ";" ++ customer o ++ ";"
              ++ (if truthy (cargoSlipPrintedAt o) then "Evet" else "Hayır"))%string
           l
  /\ List.length lines = List.length l + 1
  /\ (Forall (fields_free_of toFixed ";"%char) l ->
      map (split_on ";"%char) lines
      = ["Tarih"; "Kanal"; "Durum"; "Tutar"; "Müşteri"; "Kargo Fişi"]%string
        :: map (fun o =>
                  [date o; CHANNEL_LABELS (channel o); STATUS_LABELS (status o);
                   toFixed (amount o) 2; customer o;
                   if truthy (cargoSlipPrintedAt o) then "Evet" else "Hayır"]%string)
               l).
Proof.
  intros Hlf lines.
  assert (Hsplit : lines = map (fun row => join ";" row) (csv_table toFixed l)).
  { subst lines. unfold exportCSV. apply split_lines_join; [discriminate |].
    apply Forall_map. unfold csv_table. constructor.
    - reflexivity.
    - apply Forall_map. revert Hlf. apply Forall_impl. intros o Ho.
      rewrite has_line_feed_char. apply has_char_join; [reflexivity |].
      apply csv_row_free_of; [now left | exact Ho]. }
  split; [| split].
  - rewrite Hsplit. unfold csv_table. cbn [map]. f_equal.
    rewrite map_map. reflexivity.
  - rewrite Hsplit, length_map. unfold csv_table. simpl.
    rewrite length_map. lia.
  - intros Hsemi. rewrite Hsplit, map_map. unfold csv_table. cbn [map].
    f_equal.
    rewrite map_map. apply map_ext_in. intros o Ho.
    refine (@split_on_join ";"%char (csv_row toFixed o) _ _); [discriminate |].
    apply csv_row_free_of; [now right |].
    rewrite Forall_forall in Hsemi. now apply Hsemi.
Qed.

End ExportText.

(** C6, witness: the three sample orders, amounts printed as [0.10]. *)
Lemma exportCSV_reads_back_sample :
  let lines := split_lines (exportCSV sample_toFixed decimal_orders) in
  lines
  = ["Tarih;Kanal;Durum;Tutar;Müşteri;Kargo Fişi";
     "2024-03-01;Site;Teslim Edildi;0.10;Ayşe Yılmaz;Hayır";
     "2024-03-02;Diğer;Teslim Edildi;0.10;Ayşe Yılmaz;Hayır";
     "2024-03-01;Site;Teslim Edildi;0.10;Ayşe Yılmaz;Hayır"]%string
  /\ List.length lines = 4
  /\ map (split_on ";"%char) lines
     = [["Tarih"; "Kanal"; "Durum"; "Tutar"; "Müşteri"; "Kargo Fişi"];
        ["2024-03-01"; "Site"; "Teslim Edildi"; "0.10"; "Ayşe Yılmaz"; "Hayır"];
        ["2024-03-02"; "Diğer"; "Teslim Edildi"; "0.10"; "Ayşe Yılmaz"; "Hayır"];
        ["2024-03-01"; "Site"; "Teslim Edildi"; "0.10"; "Ayşe Yılmaz"; "Hayır"]]%string.
Proof.
  assert (Hlf : Forall (fields_free_of sample_toFixed line_feed) decimal_orders)
    by (repeat constructor).
  assert (Hsemi : Forall (fields_free_of sample_toFixed ";"%char) decimal_orders)
    by (repeat constructor).
  destruct (exportCSV_reads_back Hlf) as [Hlines [Hlen Hcolumns]].
  split; [exact Hlines | split; [exact Hlen | exact (Hcolumns Hsemi)]].
Defined.

(** C6, counterexample: one order whose customer name holds a line feed
    is exported as three lines, not two; and one whose customer name holds
    a semicolon gives a line of seven columns. *)
Lemma exportCSV_unescaped_fields :
  ~ (forall l : list (OrderRow Qc),
       List.length (split_lines (exportCSV sample_toFixed l))
       = List.length l + 1)
  /\ ~ (forall l : list (OrderRow Qc),
          Forall (fun line => List.length (split_on ";"%char line) = 6)
                 (split_lines (exportCSV sample_toFixed l))).
Proof.
  split; intros H.
  - specialize (H two_line_customer). vm_compute in H. discriminate H.
  - specialize (H semicolon_customer). vm_compute in H.
    inversion H as [|line rest _ Hrest]. inversion Hrest as [|line' rest' Hrow _].
    discriminate Hrow.
Qed.

(** ** Dates and the quick-range presets *)

Section DateFacts.
Import JsDate.
Local Open Scope Z_scope.

(** [YearFromTime] meets its definition in the language specification:
    the year whose first day is the last one not after [t]. *)
Lemma YearFromTime_spec (t : Z) :
  DayFromYear (YearFromTime t) <= Day t < DayFromYear (YearFromTime t + 1).
Proof.
  unfold YearFromTime. set (d := Day t). clearbody d.
  cbv zeta.
  destruct (DayFromYear (1970 + d * 400 / 146097 + 1) <=? d) eqn:E1;
    [| destruct (DayFromYear (1970 + d * 400 / 146097) <=? d) eqn:E2];
    rewrite ?Z.leb_le, ?Z.leb_gt in *;
    unfold DayFromYear in *; Z.div_mod_to_equations; lia.
Qed.

Lemma MonthFromTime_range (t : Z) : 0 <= MonthFromTime t <= 11.
Proof.
  unfold MonthFromTime. cbv zeta.
  repeat match goal with
         | |- context [if ?b then _ else _] => destruct b
         end; lia.
Qed.

(** Reading the local date and writing it back shifted by [k] days moves
    the day number by [k]. *)
Lemma MakeDay_shift (t k : Z) :
  MakeDay (YearFromTime t) (MonthFromTime t) (DateFromTime t + k) = Day t + k.
Proof.
  pose proof (MonthFromTime_range t) as Hm.
  unfold MakeDay. cbv zeta.
  rewrite Z.div_small, Z.mod_small, Z.add_0_r by lia.
  unfold DateFromTime, DayWithinYear. lia.
Qed.

(** [setDate(getDate() + k)] moves the local clock by [k] times 24 hours
    and reads the result back with the offset of that local time. *)
Lemma setDate_moves_local_time (zone : Zone) (t k : Z) :
  setDate zone t (getDate zone t + k)
  = UTC zone (LocalTime zone t + k * msPerDay).
Proof.
  unfold setDate, getDate. cbv zeta. f_equal. unfold MakeDate.
  rewrite MakeDay_shift. unfold Day, TimeWithinDay.
  pose proof (Z.div_mod (LocalTime zone t) msPerDay) as H.
  unfold msPerDay in *. lia.
Qed.

(** In a zone of fixed offset that is [k] times 24 hours later. *)
Lemma setDate_shift (tza t k : Z) :
  setDate tza t (getDate tza t + k) = t + k * msPerDay.
Proof.
  rewrite setDate_moves_local_time.
  unfold UTC, LocalTime, fixed_zone, offset_at, offset_of_local. lia.
Qed.

(** What holds of the two day-count presets in a zone of fixed offset
    [tza]: the range runs from the UTC calendar day of the instant 6 (or
    29) days before now to the UTC calendar day of now. *)
Lemma resetQuickRange_7d (tza now : Z) (r : Range) :
  resetQuickRange tza now "7d" r
  = {| quickRange := "7d";
       startDate := iso_day (now - 6 * msPerDay);
       endDate := iso_day now |}.
Proof.
  unfold resetQuickRange. simpl String.eqb. cbv iota zeta.
  change (getDate tza now - 6) with (getDate tza now + (-6)).
  rewrite setDate_shift. reflexivity.
Qed.

Lemma resetQuickRange_30d (tza now : Z) (r : Range) :
  resetQuickRange tza now "30d" r
  = {| quickRange := "30d";
       startDate := iso_day (now - 29 * msPerDay);
       endDate := iso_day now |}.
Proof.
  unfold resetQuickRange. simpl String.eqb. cbv iota zeta.
  change (getDate tza now - 29) with (getDate tza now + (-29)).
  rewrite setDate_shift. reflexivity.
Qed.

(** X20: the initial range is the "7d" range: [getInitialDates] returns
    the dates that [resetQuickRange('7d')] sets at the same instant in the
    same zone, which matches the initial preset id. *)
Lemma getInitialDates_7d (tza now : Z) (r : Range) :
  getInitialDates tza now
  = (startDate (resetQuickRange tza now "7d" r),
     endDate (resetQuickRange tza now "7d" r)).
Proof.
  unfold getInitialDates, resetQuickRange. simpl String.eqb. cbv iota zeta.
  unfold setEndDate, setStartDate, setQuickRange.
  cbn [startDate endDate]. reflexivity.
Qed.


(** The date model on known instants. *)
Example toISOString_epoch : toISOString 0 = "1970-01-01T00:00:00.000Z"%string.
Proof. reflexivity. Qed.

Example toISOString_leap_day :
  toISOString 951782400000 = "2000-02-29T00:00:00.000Z"%string.
Proof. reflexivity. Qed.

Example toISOString_before_epoch :
  toISOString (-1) = "1969-12-31T23:59:59.999Z"%string.
Proof. reflexivity. Qed.

Example toISOString_mid_march :
  toISOString mid_march_noon = "2024-03-15T09:00:00.000Z"%string.
Proof. reflexivity. Qed.

(** The same preset read in a zone at or west of UTC gives 1 March. *)
Example resetQuickRange_thisMonth_utc :
  startDate (resetQuickRange 0 mid_march_noon "thisMonth" initial_range)
  = "2024-03-01"%string.
Proof. reflexivity. Qed.

(** Shortly after local midnight in Istanbul the UTC day is still the day
    before, and the "7d" range ends on it. *)
Example resetQuickRange_7d_after_midnight :
  resetQuickRange istanbul (mid_march_noon - 11 * msPerHour) "7d" initial_range
  = {| quickRange := "7d";
       startDate := "2024-03-08";
       endDate := "2024-03-14" |}.
Proof. reflexivity. Qed.

(** C5, at the failing input: in Istanbul (UTC+3) at noon of 15 March
    2024 the preset "thisMonth" starts the range on 29 February, not on
    1 March. *)
Theorem resetQuickRange_thisMonth_istanbul :
  resetQuickRange istanbul mid_march_noon "thisMonth" initial_range
  = {| quickRange := "thisMonth";
       startDate := "2024-02-29";
       endDate := "2024-03-15" |}.
Proof.
  vm_compute. reflexivity.
Qed.

End DateFacts.

(** ** The load-test iteration *)

Lemma string_append_assoc (a b c : string) :
  ((a ++ b) ++ c = a ++ (b ++ c))%string.
Proof.
  induction a as [|x a IH]; simpl; [reflexivity | now rewrite IH].
Qed.

Lemma string_append_nil_r (a : string) : (a ++ EmptyString)%string = a.
Proof.
  induction a as [|x a IH]; simpl; [reflexivity | now rewrite IH].
Qed.

Section LoadTestFacts.
Import LoadTest.
Context {host : Host}.

(** C8 (as corrected): whenever the login and the product-list request
    get a response, whatever its status and body, one iteration sends the
    four requests login, list-products, add-to-cart, create-order, in this
    order, and finishes with its sleep.  Each check only records its
    verdict, also for an add-to-cart or create-order request that fails
    outright.  The later requests carry whatever the selectors returned:
    the token as text after [Bearer], so [Bearer undefined] when there is
    none, and the product id as the [product_id] member of the cart body,
    which is left out when there is none. *)
Theorem iteration_sends_four_requests (network : nat -> Request -> Reply)
  (login products : HttpResponse) :
  network 0 login_request = Received login ->
  let token := select login "token" in
  network 1 (products_request token) = Received products ->
  let productId := select products "items[0].id" in
  let cart := network 2 (cart_request token productId) in
  let order := network 3 (order_request token) in
  iteration network idle
  = (Done tt,
     {| sent := [login_request; products_request token;
                 cart_request token productId; order_request token];
        checks :=
          [("Login başarılı", (status login =? 200)%Z);
           ("Ürünler geldi", (status products =? 200)%Z);
           ("Sepete eklendi", (reply_status cart =? 200)%Z);
           ("Sipariş başarılı",
            (reply_status order =? 200)%Z || (reply_status order =? 201)%Z)]%string;
        slept := [1%Z] |})
  /\ map url [login_request; products_request token;
              cart_request token productId; order_request token]
     = ["https://api.huglutekstil.com/api/auth/login";
        "https://api.huglutekstil.com/api/products?page=1&limit=20";
        "https://api.huglutekstil.com/api/cart/add";
        "https://api.huglutekstil.com/api/order"]%string
  /\ (let bearer :=
        match token with
        | JUndefined => "undefined"
        | JNull => "null"
        | JBool true => "true"
        | JBool false => "false"
        | JString s => s
        | JNumber _ | JArray _ | JObject _ => ToString token
        end%string in
      map headers [products_request token; cart_request token productId;
                   order_request token]
      = repeat [("Authorization", "Bearer " ++ bearer);
                ("x-api-key",
                 "huglu_1f3a9b6c2e8d4f0a7b1c3d5e9f2468ab1c2d3e4f5a6b7c8d9e0f1a2b3c4d5e6f");
                ("Content-Type", "application/json")]%string 3)
  /\ body (cart_request token productId)
     = Text match productId with
            | JUndefined => "{" ++ dq ++ "quantity" ++ dq ++ ":1}"
            | JNull =>
                "{" ++ dq ++ "product_id" ++ dq ++ ":null,"
                ++ dq ++ "quantity" ++ dq ++ ":1}"
            | JString s =>
                "{" ++ dq ++ "product_id" ++ dq ++ ":" ++ quoted s ++ ","
                ++ dq ++ "quantity" ++ dq ++ ":1}"
            | JBool _ | JNumber _ | JArray _ | JObject _ =>
                JSON_stringify [("product_id", productId);
                                ("quantity", JNumber 1%float)]
            end%string.
Proof.
  intros Hlogin token Hproducts productId cart order.
  split; [| split; [| split]].
  - unfold iteration, bind, http_post, http_get, http_request, check, json,
      sleep, ret, idle.
    cbn [sent checks slept List.length app].
    fold login_request. rewrite Hlogin.
    cbn [sent checks slept List.length app reply_status].
    fold token. fold (auth_headers token). fold (products_request token).
    rewrite Hproducts.
    cbn [sent checks slept List.length app reply_status].
    reflexivity.
  - reflexivity.
  - destruct token as [| |[|]| | | |]; reflexivity.
  - destruct productId as [| | | |s| |]; try reflexivity.
    unfold cart_request, JSON_stringify. cbn [body]. f_equal.
    cbn [stringify_value flat_map fst snd app].
    change (number_text 1) with "1"%string.
    unfold join. cbn [String.concat].
    rewrite !string_append_assoc. reflexivity.
Qed.

(** With every check failing and nothing captured, the journey still runs
    to its end, sending [Bearer undefined] and a cart body without a
    product id. *)
Lemma iteration_on_failing_server :
  let w := snd (iteration (fun n rq => Received (failing_server n rq)) idle) in
  map url (sent w)
  = [BASE_URL ++ "/auth/login"; BASE_URL ++ "/products?page=1&limit=20";
     BASE_URL ++ "/cart/add"; BASE_URL ++ "/order"]%string
  /\ map snd (checks w) = [false; false; false; false]
  /\ map headers (sent w)
     = [[]; auth_headers JUndefined; auth_headers JUndefined;
        auth_headers JUndefined]
  /\ nth_error (map body (sent w)) 2
     = Some (Text (String "{" (String (ascii_of_nat 34)
                     ("quantity" ++ String (ascii_of_nat 34) ":1}"))))%string.
Proof.
  vm_compute. repeat split.
Qed.

(** Captured values as text.  Whole numbers print all their digits,
    other numbers as the host prints them; an array prints its elements
    and an object prints [[object Object]]. *)
Example captured_values_as_text :
  ToString (JNumber 42) = "42"%string
  /\ ToString (JNumber (-7)) = "-7"%string
  /\ ToString (JNumber 0.5) = Number_toString 0.5%float
  /\ ToString (JNumber 0x1p53) = Number_toString 0x1p53%float
  /\ ToString (JArray [JNumber 1; JNull; JString "a"]) = "1,,a"%string
  /\ ToString (JObject [("id"%string, JNumber 1)]) = "[object Object]"%string
  /\ JSON_stringify [("product_id", JNumber 42); ("quantity", JNumber 1)]%string
     = ("{" ++ dq ++ "product_id" ++ dq ++ ":42,"
        ++ dq ++ "quantity" ++ dq ++ ":1}")%string
  /\ JSON_stringify [("product_id", JArray [JUndefined; JBool true]);
                     ("quantity", JNumber 1)]%string
     = ("{" ++ dq ++ "product_id" ++ dq ++ ":[null,true],"
        ++ dq ++ "quantity" ++ dq ++ ":1}")%string.
Proof. repeat split; reflexivity. Qed.

(** A request that gets no response at all is a different matter: [json]
    throws on the null body, and the iteration ends after its first
    request. *)
Lemma iteration_stops_without_login_response (network : nat -> Request -> Reply) :
  network 0 login_request = RequestFailed ->
  exists e w,
    iteration network idle = (Exception e, w)
    /\ sent w = [login_request].
Proof.
  intros H. unfold iteration, bind, http_post, http_request, check, json, idle.
  cbn [sent checks slept List.length app]. fold login_request. rewrite H.
  eexists. eexists. split; reflexivity.
Qed.

End LoadTestFacts.

(** C8, witness: a server that answers every request with status 500 and
    no JSON.  All four requests are sent, with [Bearer undefined] and a
    cart body that names no product. *)
Lemma iteration_sends_four_requests_failing_server :
  let network := fun n rq => LoadTest.Received (LoadTest.failing_server n rq) in
  @LoadTest.iteration LoadTest.sample_host network LoadTest.idle
  = (LoadTest.Done tt,
     {| LoadTest.sent :=
          [LoadTest.login_request;
           @LoadTest.products_request LoadTest.sample_host LoadTest.JUndefined;
           @LoadTest.cart_request LoadTest.sample_host
             LoadTest.JUndefined LoadTest.JUndefined;
           @LoadTest.order_request LoadTest.sample_host LoadTest.JUndefined];
        LoadTest.checks :=
          [("Login başarılı", false); ("Ürünler geldi", false);
           ("Sepete eklendi", false); ("Sipariş başarılı", false)]%string;
        LoadTest.slept := [1%Z] |})
  /\ LoadTest.headers
       (@LoadTest.products_request LoadTest.sample_host LoadTest.JUndefined)
     = [("Authorization", "Bearer undefined");
        ("x-api-key",
         "huglu_1f3a9b6c2e8d4f0a7b1c3d5e9f2468ab1c2d3e4f5a6b7c8d9e0f1a2b3c4d5e6f");
        ("Content-Type", "application/json")]%string
  /\ LoadTest.body
       (@LoadTest.cart_request LoadTest.sample_host
          LoadTest.JUndefined LoadTest.JUndefined)
     = LoadTest.Text
         ("{" ++ LoadTest.dq ++ "quantity" ++ LoadTest.dq ++ ":1}")%string.
Proof.
  intros network.
  destruct (@iteration_sends_four_requests LoadTest.sample_host network
              (LoadTest.failing_server 0 LoadTest.login_request)
              (LoadTest.failing_server 1
                 (@LoadTest.products_request LoadTest.sample_host
                    LoadTest.JUndefined))
              eq_refl eq_refl)
    as (Hrun & _ & Hheaders & Hbody).
  split; [exact Hrun | split; [| exact Hbody]].
  exact (f_equal (@hd _ []) Hheaders).
Defined.

(** C8, counterexample: when the login request gets no response at all,
    the failed check is followed by [login.json], which throws on the null
    body: the iteration ends after one request, without sleeping. *)
Lemma iteration_stops_without_response :
  ~ (forall (host : LoadTest.Host)
            (network : nat -> LoadTest.Request -> LoadTest.Reply),
       exists w : LoadTest.World,
         LoadTest.iteration network LoadTest.idle = (LoadTest.Done tt, w)
         /\ List.length (LoadTest.sent w) = 4).
Proof.
  intros H.
  destruct (H LoadTest.sample_host (fun _ _ => LoadTest.RequestFailed))
    as [w [Hrun _]].
  vm_compute in Hrun. discriminate Hrun.
Qed.

(* ================================================================== *)
(** * Part III. Further properties of the component and the script *)
(* ================================================================== *)

(** ** What each bucket holds *)

Section BucketContents.
Context {num : Type} {N : Number num}.

(** X1: every by-channel bucket holds the orders of its channel: their
    number, and their amounts added in list order starting from 0.  This
    holds on doubles as well. *)
Theorem byChannel_bucket_content (l : list (OrderRow num)) :
  byChannel l
  = map (fun c =>
           let mine := filter (fun o => Channel_eqb c (channel o)) l in
           {| cb_channel := c;
              cb_amount := fold_left nadd (map (@amount num) mine) nzero;
              cb_count := List.length mine |})
        channelOrder.
Proof.
  unfold byChannel. apply map_ext. intros c.
  pose proof (channel_fold_channel l channel_map_init c) as Hc.
  destruct (channel_fold_bucket l channel_map_init c) as [Hn Ha].
  destruct (fold_left channel_visit l channel_map_init c) as [c' a n].
  simpl in *. now subst.
Qed.

Lemma status_fold_value (l : list (OrderRow num)) (m : Status -> nat)
  (k : Status) :
  fold_left status_visit l m k
  = m k + List.length (filter (fun o => Status_eqb k (status o)) l).
Proof.
  revert m. induction l as [|o l IH]; intros m; simpl.
  - lia.
  - rewrite IH. unfold status_visit.
    destruct (Status_eqb k (status o)); simpl; lia.
Qed.

Lemma byStatus_slices (o : OrderRow num) (l : list (OrderRow num)) :
  byStatus (o :: l)
  = map (fun k =>
           {| ss_status := k;
              value := List.length
                         (filter (fun x => Status_eqb k (status x)) (o :: l)) |})
        statusKeys.
Proof.
  unfold byStatus. rewrite byStatus_total. cbn [List.length Nat.eqb].
  apply map_ext. intros k. now rewrite status_fold_value.
Qed.

(** X2: when there is at least one order, the by-status reducer returns,
    for each of the six statuses in key order, the number of orders in
    that status. *)
Theorem byStatus_values (o : OrderRow num) (l : list (OrderRow num)) :
  map (fun s => (ss_status s, value s)) (byStatus (o :: l))
  = map (fun k =>
           (k, List.length (filter (fun x => Status_eqb k (status x)) (o :: l))))
        statusKeys.
Proof.
  rewrite byStatus_slices, map_map. reflexivity.
Qed.

Lemma Status_eqb_eq (a b : Status) : Status_eqb a b = true <-> a = b.
Proof.
  destruct a, b; simpl; split; intros H; try reflexivity; discriminate H.
Qed.

Lemma filter_length_pos {A : Type} (f : A -> bool) (l : list A) :
  0 < List.length (filter f l) <-> exists x, In x l /\ f x = true.
Proof.
  split.
  - destruct (filter f l) as [|x rest] eqn:E; simpl; [lia |].
    intros _. exists x. apply filter_In. rewrite E. now left.
  - intros [x Hx]. apply filter_In in Hx.
    destruct (filter f l); [contradiction | simpl; lia].
Qed.

(** X3: the legend under the pie chart.  With no orders it shows one
    pending order, the placeholder.  With orders it lists exactly the
    statuses that occur, each with a positive count, and the counts sum to
    the number of orders. *)
Theorem status_legend_entries (l : list (OrderRow num)) :
  let legend := status_legend (byStatus l) in
  match l with
  | [] => legend = [{| ss_status := pending; value := 1 |}]
  | _ :: _ =>
      (forall k, In k (map ss_status legend)
                 <-> exists o, In o l /\ status o = k)
      /\ Forall (fun s => 0 < value s) legend
      /\ list_sum (map value legend) = List.length l
  end.
Proof.
  destruct l as [|o l']; [reflexivity |].
  cbv zeta. rewrite byStatus_slices. set (l := o :: l').
  split; [| split].
  - intros k. unfold status_legend. rewrite in_map_iff. split.
    + intros [s [Hk Hs]]. apply filter_In in Hs. destruct Hs as [Hs Hpos].
      apply in_map_iff in Hs. destruct Hs as [k' [<- _]].
      cbn [ss_status value] in *. subst k'.
      apply Nat.ltb_lt, filter_length_pos in Hpos.
      destruct Hpos as [x [Hx Hkx]]. exists x. split; [exact Hx |].
      symmetry. now apply Status_eqb_eq.
    + intros [x [Hx Hkx]].
      exists {| ss_status := k;
                value := List.length
                           (filter (fun y => Status_eqb k (status y)) l) |}.
      split; [reflexivity |]. apply filter_In. split.
      * apply in_map_iff. exists k. split; [reflexivity |].
        destruct k; simpl; tauto.
      * cbn [value]. apply Nat.ltb_lt, filter_length_pos. exists x.
        split; [exact Hx |]. apply Status_eqb_eq. now symmetry.
  - apply Forall_forall. intros s Hs. apply filter_In in Hs.
    now apply Nat.ltb_lt.
  - transitivity
      (list_sum (map value
         (map (fun k => {| ss_status := k;
                           value := List.length
                             (filter (fun x => Status_eqb k (status x)) l) |})
              statusKeys))).
    + unfold status_legend.
      generalize (map (fun k => {| ss_status := k;
                                   value := List.length
                                     (filter (fun x => Status_eqb k (status x)) l) |})
                      statusKeys).
      intros slices. induction slices as [|s slices IH]; simpl; [reflexivity |].
      destruct (value s) eqn:Ev; simpl; rewrite ?Ev, IH; reflexivity.
    + rewrite map_map. cbn [value].
      transitivity
        (list_sum (map (fold_left status_visit l (fun _ => 0)) statusKeys)).
      * f_equal. apply map_ext. intros k. now rewrite status_fold_value.
      * now rewrite status_fold_total.
Qed.

End BucketContents.

(** ** The order of the orders does not matter *)

Lemma perm_filter {A : Type} (f : A -> bool) (l l' : list A) :
  Permutation l l' -> Permutation (filter f l) (filter f l').
Proof.
  induction 1 as [|x l l' _ IH|x y l|l l' l'' _ IH1 _ IH2]; simpl.
  - constructor.
  - destruct (f x); [now constructor | exact IH].
  - destruct (f x), (f y); try reflexivity. apply perm_swap.
  - now transitivity (filter f l').
Qed.

Lemma string_lt_irrefl (a : string) : (a ?= a)%string <> Lt.
Proof.
  intros H. pose proof (String.compare_antisym a a) as Ha.
  rewrite H in Ha. discriminate Ha.
Qed.

Lemma StronglySorted_of_map {A B : Type} (f : A -> B) (R : B -> B -> Prop)
  (l : list A) :
  StronglySorted R (map f l) -> StronglySorted (fun a b => R (f a) (f b)) l.
Proof.
  induction l as [|x l IH]; simpl; intros H.
  - constructor.
  - inversion H as [|? ? Hl Hx]; subst. constructor.
    + now apply IH.
    + rewrite Forall_forall in *. intros y Hy. apply Hx. now apply in_map.
Qed.

(** Two lists with strictly increasing keys and the same elements are the
    same list. *)
Lemma strictly_sorted_unique {A : Type} (key : A -> string) (l1 l2 : list A) :
  StronglySorted (fun a b => (key a ?= key b)%string = Lt) l1 ->
  StronglySorted (fun a b => (key a ?= key b)%string = Lt) l2 ->
  (forall x, In x l1 <-> In x l2) ->
  l1 = l2.
Proof.
  intros S1. revert l2.
  induction S1 as [|x xs S1 IH Hx]; intros l2 S2 Hin.
  - destruct l2 as [|y ys]; [reflexivity |].
    exfalso. apply (Hin y). now left.
  - destruct S2 as [|y ys S2 Hy].
    + exfalso. apply (Hin x). now left.
    + rewrite Forall_forall in Hx, Hy.
      assert (Exy : x = y).
      { destruct (proj1 (Hin x) (or_introl eq_refl)) as [E | Hxin];
          [now symmetry |].
        destruct (proj2 (Hin y) (or_introl eq_refl)) as [E | Hyin];
          [exact E |].
        exfalso. apply (string_lt_irrefl (key x)).
        apply string_lt_trans with (key y); [now apply Hx | now apply Hy]. }
      subst y. f_equal. apply IH; [exact S2 |].
      intros z. split; intros Hz.
      * destruct (proj1 (Hin z) (or_intror Hz)) as [E | Hz']; [| exact Hz'].
        subst z. exfalso. apply (string_lt_irrefl (key x)). now apply Hx.
      * destruct (proj2 (Hin z) (or_intror Hz)) as [E | Hz']; [| exact Hz'].
        subst z. exfalso. apply (string_lt_irrefl (key x)). now apply Hy.
Qed.

Section OrderIndependence.
Context {num : Type} {N : Number num}.


Lemma series_visit_length (bucket : JsObject (DayBucket num)) (o : OrderRow num) :
  List.length (series_visit bucket o) <= List.length bucket + 1.
Proof.
  unfold series_visit.
  rewrite <- (length_map fst), own_update_keys, length_map.
  destruct (negb _); [| lia].
  unfold own_add. rewrite length_app. simpl. lia.
Qed.

Lemma series_fold_length (l : list (OrderRow num))
  (bucket : JsObject (DayBucket num)) :
  List.length (fold_left series_visit l bucket)
  <= List.length bucket + List.length l.
Proof.
  revert bucket. induction l as [|o l IH]; intros bucket; simpl.
  - lia.
  - pose proof (IH (series_visit bucket o)).
    pose proof (series_visit_length bucket o). lia.
Qed.

(** X5: the time series never has more buckets than there are orders,
    whatever the date strings and the collation are; in particular it is
    empty when there are no orders. *)
Theorem timeSeries_size (localeCompare : string -> string -> Z)
  (l : list (OrderRow num)) :
  List.length (timeSeries localeCompare l) <= List.length l.
Proof.
  rewrite (Permutation_length (timeSeries_perm localeCompare l)), length_map.
  apply (series_fold_length l []).
Qed.

Lemma day_bucket_perm (l l' : list (OrderRow num)) (k : string)
  (b : DayBucket num) :
  Permutation l l' ->
  day_bucket l k = Some b ->
  exists b', day_bucket l' k = Some b'
             /\ db_date b' = db_date b /\ db_count b' = db_count b
             /\ (ExactNumber num -> b' = b).
Proof.
  intros P. unfold day_bucket.
  pose proof (perm_filter (fun o => String.eqb (date o) k) P) as Pk.
  fold (orders_of_day k l) in Pk. fold (orders_of_day k l') in Pk.
  destruct (inherited k); [discriminate |].
  destruct (orders_of_day k l) as [|o day] eqn:Ed; [discriminate |].
  intros H. injection H as <-.
  destruct (orders_of_day k l') as [|o' day'] eqn:Ed'.
  - apply Permutation_length in Pk. discriminate Pk.
  - eexists. split; [reflexivity |]. cbn [db_date db_count db_amount].
    split; [reflexivity |]. split.
    + symmetry. exact (Permutation_length Pk).
    + intros E. f_equal.
      * symmetry. exact (sum_amounts_perm (Permutation_map (@amount num) Pk)).
      * symmetry. exact (Permutation_length Pk).
Qed.

Variable localeCompare : string -> string -> Z.
Hypothesis collation : collates_iso localeCompare.

Lemma timeSeries_increasing (l : list (OrderRow num)) :
  iso_dated l ->
  StronglySorted (fun a b => (a ?= b)%string = Lt)
                 (map (@db_date num) (timeSeries localeCompare l)).
Proof.
  intros Hl. apply nondecreasing_NoDup_increasing.
  - now apply timeSeries_nondecreasing.
  - apply timeSeries_dates_NoDup.
Qed.


End OrderIndependence.

(** ** More on the CSV export *)

Lemma count_char_append (c : ascii) (s t : string) :
  count_char c (s ++ t) = count_char c s + count_char c t.
Proof.
  induction s as [|c' s IH]; simpl; [reflexivity |]. rewrite IH. lia.
Qed.

Section CsvFacts.
Context {num : Type} {N : Number num}.
Variable toFixed : num -> nat -> string.

(** X7: the cargo-slip column and the cargo-slip rate agree: the rows
    that say [Evet] are as many as the orders that [totals] counts as
    on time, so the rate is that number of rows over the number of
    orders, times 100. *)
Theorem csv_slip_column_matches_rate (l : list (OrderRow num)) :
  let evet :=
    List.length
      (filter (fun row => String.eqb (last row EmptyString) "Evet")
              (tl (csv_table toFixed l))) in
  evet = List.length (filter (fun o => truthy (cargoSlipPrintedAt o)) l)
  /\ onTimeRate (totals l)
     = if truthy_count (List.length l)
       then nmul (ndiv (of_count evet) (of_count (List.length l))) (of_count 100)
       else nzero.
Proof.
  cbv zeta.
  assert (He : List.length
                 (filter (fun row => String.eqb (last row EmptyString) "Evet")
                         (tl (csv_table toFixed l)))
               = List.length (filter (fun o => truthy (cargoSlipPrintedAt o)) l)).
  { simpl. induction l as [|o l IH]; simpl; [reflexivity |].
    destruct (truthy (cargoSlipPrintedAt o)); simpl; now rewrite IH. }
  split; [exact He |]. rewrite He. reflexivity.
Qed.

(** X8: fields are written unescaped.  The text of a row holds the five
    separators and every semicolon that occurs in the date, the formatted
    amount or the customer name, so it reads back as six columns exactly
    when these three hold none. *)
Theorem csv_row_semicolons (o : OrderRow num) :
  count_char ";" (join ";" (csv_row toFixed o))
  = 5 + count_char ";" (date o)
      + count_char ";" (toFixed (amount o) 2)
      + count_char ";" (customer o).
Proof.
  unfold join, csv_row. cbn [String.concat].
  rewrite !count_char_append.
  destruct (channel o), (status o), (truthy (cargoSlipPrintedAt o));
    cbn [CHANNEL_LABELS STATUS_LABELS]; simpl count_char; lia.
Qed.

End CsvFacts.

(** X9, witness: three rows without line feeds. *)
Lemma exportCSV_lines_sample :
  split_lines (exportCSV sample_toFixed decimal_orders)
  = map (fun row => join ";" row) (csv_table sample_toFixed decimal_orders)
  /\ List.length (split_lines (exportCSV sample_toFixed decimal_orders))
     = List.length decimal_orders + 1.
Proof.
  apply (@exportCSV_lines Qc sample_toFixed decimal_orders).
  repeat constructor.
Defined.



(** ** The PDF export *)

Section PdfFacts.
Context {num : Type} {N : Number num}.
Variable toFixed : num -> nat -> string.

Lemma forEach_indexed_length {A B : Type} (f : nat -> A -> B) (k : nat)
  (l : list A) :
  List.length (forEach_indexed f k l) = List.length l.
Proof.
  revert k. induction l as [|a l IH]; intros k; simpl; [reflexivity |].
  now rewrite IH.
Qed.

Lemma forEach_indexed_nth {A B : Type} (f : nat -> A -> B) (k : nat)
  (l : list A) (i : nat) :
  nth_error (forEach_indexed f k l) i = option_map (f (k + i)) (nth_error l i).
Proof.
  revert k i. induction l as [|a l IH]; intros k i; simpl.
  - now destruct i.
  - destruct i as [|i]; simpl.
    + now rewrite Nat.add_0_r.
    + rewrite IH. now rewrite Nat.add_succ_r.
Qed.

Lemma pdf_order_lines_y (k : nat) (l : list (OrderRow num)) :
  map tc_y (forEach_indexed (pdf_order_line toFixed) k l)
  = map (fun i => (70 + Z.of_nat i * 7)%Z) (seq k (List.length l)).
Proof.
  revert k. induction l as [|o l IH]; intros k; simpl; [reflexivity |].
  now rewrite IH.
Qed.

(** X10: the PDF holds the seven summary lines and then one line for each
    of the first five orders, in order and numbered from 1; no later order
    is written.  Every line is placed below the previous one, between
    y = 15 and y = 98. *)
Theorem exportPDF_layout (now : Z) (l : list (OrderRow num)) :
  let calls := fst (exportPDF toFixed now l) in
  List.length calls = 7 + Nat.min (List.length l) 5
  /\ (forall i o, i < 5 -> nth_error l i = Some o ->
        nth_error calls (7 + i) = Some (pdf_order_line toFixed i o))
  /\ (forall i, 5 <= i -> nth_error calls (7 + i) = None)
  /\ StronglySorted Z.lt (map tc_y calls)
  /\ Forall (fun y => (15 <= y <= 98)%Z) (map tc_y calls).
Proof.
  cbv zeta. unfold exportPDF. cbn [fst].
  set (head := [_; _; _; _; _; _; _]).
  assert (Hhead : List.length head = 7) by reflexivity.
  assert (Hm : List.length (firstn 5 l) = Nat.min (List.length l) 5).
  { rewrite length_firstn. lia. }
  split; [| split; [| split]].
  - rewrite length_app, forEach_indexed_length, Hhead, Hm. reflexivity.
  - intros i o Hi Ho.
    rewrite nth_error_app2 by (rewrite Hhead; lia).
    rewrite Hhead, forEach_indexed_nth.
    replace (7 + i - 7) with i by lia.
    rewrite nth_error_firstn.
    destruct (Nat.ltb_spec i 5) as [_ | Hge]; [| lia].
    now rewrite Ho.
  - intros i Hi. apply nth_error_None.
    rewrite length_app, forEach_indexed_length, Hhead, Hm. lia.
  - rewrite map_app, pdf_order_lines_y, Hm.
    subst head. cbn [map tc_y].
    assert (Hcases : Nat.min (List.length l) 5 <= 5) by lia.
    destruct (Nat.min (List.length l) 5) as [|[|[|[|[|[|m]]]]]];
      try lia; cbn [seq map app Z.of_nat];
      (split; [repeat (constructor; [| repeat constructor; lia]); constructor
              | repeat constructor; lia]).
Qed.

End PdfFacts.

(** ** More on the order fetcher *)

Section FetcherSettles.
Import Fetcher.
Context {num : Type}.

(** X11: whatever the network does and whatever the view held,
    [fetchOrders] never throws to its caller and never leaves the loading
    flag on.  It starts by raising the flag and clearing the old message,
    it ends by lowering the flag, and the view shows a message afterwards
    exactly when the fetch failed. *)
Theorem fetchOrders_always_settles (reply : FetchOutcome num) (v : View num) :
  exists (v' : View num) (calls : list (Call num)),
    fetchOrders reply v = (Normal tt, v', SetLoading true :: SetError None :: calls)
    /\ last calls (SetLoading true) = SetLoading false
    /\ loading v' = false
    /\ (error v' = None <-> failed reply = false).
Proof.
  destruct reply as [[m|] | [|] [[m|] | | [[|] d m]]];
    eexists; eexists; (split; [reflexivity |]); simpl;
    repeat split; intros; congruence.
Qed.

End FetcherSettles.

(** X12, witness: a successful reply with no orders. *)
Lemma fetchOrders_success_empty :
  Fetcher.fetchOrders
    (Fetcher.Responds true
       (Fetcher.JsonObject
          {| Fetcher.success := true; Fetcher.data := [];
             Fetcher.message := None |}))
    {| Fetcher.orders := decimal_orders; Fetcher.loading := false;
       Fetcher.error := Some "Failed to fetch reports"%string |}
  = (Fetcher.Normal tt,
     {| Fetcher.orders := []; Fetcher.loading := false; Fetcher.error := None |},
     [Fetcher.SetLoading true; Fetcher.SetError None; Fetcher.SetOrders [];
      Fetcher.SetLoading false]).
Proof.
  exact (@fetchOrders_success Qc
           {| Fetcher.success := true; Fetcher.data := [];
              Fetcher.message := None |}
           {| Fetcher.orders := decimal_orders; Fetcher.loading := false;
              Fetcher.error := Some "Failed to fetch reports"%string |}
           eq_refl).
Defined.

(** ** The request of the order fetcher *)

Lemma is_digit_form_safe (c : ascii) : is_digit c = true -> form_safe c = true.
Proof.
  unfold is_digit, digit_of, form_safe. cbv zeta.
  destruct ((48 <=? N_of_ascii c)%N && (N_of_ascii c <=? 57)%N);
    [reflexivity | discriminate].
Qed.

(** A calendar-day string needs no escaping. *)
Lemma form_encode_iso_date (s : string) : iso_date s = true -> form_encode s = s.
Proof.
  intros H.
  do 10 (destruct s as [|? s]; [discriminate H |]).
  destruct s; [| discriminate H].
  simpl in H. repeat (apply andb_prop in H; destruct H as [H ?]).
  repeat match goal with
         | Hd : is_digit _ = true |- _ => apply is_digit_form_safe in Hd
         | He : Ascii.eqb _ _ = true |- _ => apply Ascii.eqb_eq in He; subst
         end.
  simpl. unfold form_byte.
  repeat match goal with
         | Hs : form_safe _ = true |- _ => rewrite Hs; clear Hs
         end.
  reflexivity.
Qed.

Lemma form_encode_Channel_id (c : Channel) :
  form_encode (Channel_id c) = Channel_id c.
Proof. destruct c; reflexivity. Qed.

Lemma form_encode_Status_id (s : Status) :
  form_encode (Status_id s) = Status_id s.
Proof. destruct s; reflexivity. Qed.

(** X13: with both dates given as calendar days, the query string of the
    report request is [dateFrom] and [dateTo] with the dates as they are,
    followed by [channel] and [status] only for a filter that is not
    ['all'], in this order. *)
Theorem report_query_iso (d1 d2 : string) (c : option Channel)
  (s : option Status) :
  iso_date d1 = true -> iso_date d2 = true ->
  URLSearchParams_toString
    (report_params {| f_startDate := d1; f_endDate := d2;
                      f_channel := c; f_status := s |})
  = ("dateFrom=" ++ d1 ++ "&dateTo=" ++ d2
     ++ match c with
        | Some ch => "&channel=" ++ Channel_id ch
        | None => EmptyString
        end
     ++ match s with
        | Some st => "&status=" ++ Status_id st
        | None => EmptyString
        end)%string.
Proof.
  intros H1 H2.
  assert (T1 : truthy_string d1 = true) by (destruct d1; [discriminate H1 | reflexivity]).
  assert (T2 : truthy_string d2 = true) by (destruct d2; [discriminate H2 | reflexivity]).
  unfold report_params, URLSearchParams_toString, join.
  cbn [f_startDate f_endDate f_channel f_status]. rewrite T1, T2.
  destruct c as [ch|], s as [st|]; cbn [app map fst snd String.concat];
    rewrite (form_encode_iso_date d1 H1), (form_encode_iso_date d2 H2),
      ?form_encode_Channel_id, ?form_encode_Status_id;
    simpl; rewrite ?string_append_assoc, ?string_append_nil_r; reflexivity.
Qed.

Lemma prefix_append (p s t : string) :
  String.prefix p s = true -> String.prefix p (s ++ t) = true.
Proof.
  revert s. induction p as [|c p IH]; intros s H.
  - now destruct (s ++ t)%string.
  - destruct s as [|c' s]; [discriminate H |]. simpl in *.
    destruct (ascii_dec c c'); [now apply IH | discriminate H].
Qed.

Lemma includes_append_l (s t sub : string) :
  includes s sub = true -> includes (s ++ t) sub = true.
Proof.
  induction s as [|c s IH]; simpl; intros H.
  - apply orb_true_iff in H. destruct H as [H | H]; [| discriminate H].
    destruct sub; [| discriminate H]. now destruct t.
  - apply orb_true_iff in H. apply orb_true_iff. destruct H as [H | H].
    + left. exact (prefix_append sub (String c s) t H).
    + right. now apply IH.
Qed.

Lemma includes_append_r (s t sub : string) :
  includes t sub = true -> includes (s ++ t) sub = true.
Proof.
  intros H. induction s as [|c s IH]; simpl; [exact H |].
  apply orb_true_iff. now right.
Qed.

(** X14: whatever [NEXT_PUBLIC_API_URL] is, unset and empty included,
    the endpoint of the report request contains [/api] and ends in
    [/admin/reports]; [/api] is added only when the configured URL does
    not contain it already. *)
Theorem report_endpoint_shape (env : option string) :
  includes (report_endpoint env) "/api" = true
  /\ (report_endpoint env = apiUrl env ++ "/admin/reports"
      \/ report_endpoint env = apiUrl env ++ "/api/admin/reports")%string
  /\ (includes (apiUrl env) "/api" = true <->
      report_endpoint env = apiUrl env ++ "/admin/reports")%string
  /\ truthy_string (apiUrl env) = true.
Proof.
  unfold report_endpoint.
  destruct (includes (apiUrl env) "/api") eqn:E.
  - split; [now apply includes_append_l |].
    split; [now left |]. split; [tauto |].
    unfold apiUrl. destruct env as [u|]; [| reflexivity].
    now destruct (truthy_string u) eqn:Eu.
  - split; [now apply includes_append_r |].
    split; [now right |]. split.
    + split; [discriminate |]. intros H. exfalso.
      assert (Hlen : String.length (apiUrl env ++ "/api/admin/reports")
                     = String.length (apiUrl env ++ "/admin/reports"))
        by now rewrite H.
      clear -Hlen. induction (apiUrl env) as [|c u IH]; simpl in Hlen;
        [discriminate Hlen | apply IH; now injection Hlen].
    + unfold apiUrl. destruct env as [u|]; [| reflexivity].
      now destruct (truthy_string u) eqn:Eu.
Qed.

(** ** More on the quick-range presets *)

Section PresetFacts.
Import JsDate.
Local Open Scope Z_scope.

Lemma DayFromYear_next (y : Z) :
  DayFromYear (y + 1) = DayFromYear y + DaysInYear y.
Proof.
  unfold DayFromYear, DaysInYear.
  destruct (Z.eqb_spec (y mod 4) 0), (Z.eqb_spec (y mod 100) 0),
    (Z.eqb_spec (y mod 400) 0); cbn [andb orb negb];
    Z.div_mod_to_equations; lia.
Qed.

Lemma DayFromYear_mono (y1 y2 : Z) :
  y1 <= y2 -> DayFromYear y1 <= DayFromYear y2.
Proof.
  unfold DayFromYear. intros H. Z.div_mod_to_equations. lia.
Qed.

Lemma YearFromTime_unique (t y : Z) :
  DayFromYear y <= Day t < DayFromYear (y + 1) -> YearFromTime t = y.
Proof.
  intros [Hlo Hhi]. destruct (YearFromTime_spec t) as [Slo Shi].
  destruct (Z.lt_trichotomy (YearFromTime t) y) as [Hlt | [Heq | Hgt]];
    [| exact Heq |].
  - pose proof (@DayFromYear_mono (YearFromTime t + 1) y ltac:(lia)). lia.
  - pose proof (@DayFromYear_mono (y + 1) (YearFromTime t) ltac:(lia)). lia.
Qed.

Lemma leap_days_range (y : Z) : leap_days y = 0 \/ leap_days y = 1.
Proof.
  unfold leap_days, DaysInYear. destruct (_ && _); [right | left]; reflexivity.
Qed.

(** The calendar date of any instant of the day on which month [m] of
    year [y] starts. *)
Lemma first_of_month (t y m : Z) :
  0 <= m <= 11 ->
  Day t = DayFromYear y + month_start (leap_days y) m ->
  YearFromTime t = y /\ MonthFromTime t = m /\ DateFromTime t = 1.
Proof.
  intros Hm Hd.
  assert (Hy : YearFromTime t = y).
  { apply YearFromTime_unique. rewrite DayFromYear_next, Hd.
    pose proof (leap_days_range y) as Hl. unfold leap_days in *.
    assert (Hc : m = 0 \/ m = 1 \/ m = 2 \/ m = 3 \/ m = 4 \/ m = 5 \/ m = 6
                 \/ m = 7 \/ m = 8 \/ m = 9 \/ m = 10 \/ m = 11) by lia.
    repeat (destruct Hc as [-> | Hc]); try subst m; cbn [month_start]; lia. }
  assert (Hw : DayWithinYear t = month_start (leap_days y) m).
  { unfold DayWithinYear. rewrite Hy. lia. }
  assert (Hmonth : MonthFromTime t = m).
  { unfold MonthFromTime. cbv zeta. rewrite Hw, Hy.
    pose proof (leap_days_range y) as Hl.
    assert (Hc : m = 0 \/ m = 1 \/ m = 2 \/ m = 3 \/ m = 4 \/ m = 5 \/ m = 6
                 \/ m = 7 \/ m = 8 \/ m = 9 \/ m = 10 \/ m = 11) by lia.
    destruct Hl as [-> | ->];
      repeat (destruct Hc as [-> | Hc]); try subst m; reflexivity. }
  split; [exact Hy | split; [exact Hmonth |]].
  unfold DateFromTime. rewrite Hw, Hy, Hmonth. lia.
Qed.

(** X15: the presets "7d" and "30d" in any time zone, daylight-saving
    changes included.  The range ends on the UTC calendar day of now and
    starts on the UTC calendar day of the instant that shows the same
    local clock time 6 (or 29) days earlier: now minus 6 (or 29) times 24
    hours, plus the difference between the offset now and the offset on
    the start day.  So the range spans 7 (or 30) days whenever the two
    offsets agree, as they always do in a zone of fixed offset. *)
Theorem day_presets_span (zone : Zone) (now : Z) (r : Range) :
  let drift k :=
    offset_at zone now
    - offset_of_local zone (now + offset_at zone now - k * msPerDay) in
  let r7 := resetQuickRange zone now "7d" r in
  let r30 := resetQuickRange zone now "30d" r in
  (quickRange r7 = "7d"%string
   /\ startDate r7 = iso_day (now - 6 * msPerDay + drift 6)
   /\ endDate r7 = iso_day now
   /\ (drift 6 = 0 -> Day (now - 6 * msPerDay + drift 6) = Day now - 6))
  /\ (quickRange r30 = "30d"%string
      /\ startDate r30 = iso_day (now - 29 * msPerDay + drift 29)
      /\ endDate r30 = iso_day now
      /\ (drift 29 = 0 -> Day (now - 29 * msPerDay + drift 29) = Day now - 29)).
Proof.
  cbv zeta. unfold resetQuickRange. simpl String.eqb. cbv iota zeta.
  unfold setEndDate, setStartDate, setQuickRange.
  cbn [quickRange startDate endDate].
  change (getDate zone now - 6) with (getDate zone now + (-6)).
  change (getDate zone now - 29) with (getDate zone now + (-29)).
  rewrite !setDate_moves_local_time. unfold UTC, LocalTime.
  replace (now + offset_at zone now + -6 * msPerDay)
    with (now + offset_at zone now - 6 * msPerDay) by lia.
  replace (now + offset_at zone now + -29 * msPerDay)
    with (now + offset_at zone now - 29 * msPerDay) by lia.
  repeat split; try reflexivity;
    match goal with
    | |- _ -> _ =>
        intros ->; unfold Day, msPerDay; Z.div_mod_to_equations; lia
    | |- _ => unfold iso_day; do 2 f_equal; lia
    end.
Qed.

(** Across the start of daylight saving time the start moves by the hour
    that the clocks skipped: in New York on the evening of 12 March 2024
    the preset "7d" gives 2024-03-07 to 2024-03-12, six days. *)
Example day_preset_across_dst :
  resetQuickRange new_york_2024 march_12_evening "7d" initial_range
  = {| quickRange := "7d"; startDate := "2024-03-07";
       endDate := "2024-03-12" |}.
Proof. vm_compute. reflexivity. Qed.


End PresetFacts.



(** ** More on the load-test iteration *)

Section IterationFacts.
Import LoadTest.
Context {host : Host}.

(** X18: where an iteration can stop.  Whatever k6 hands back, failed
    requests included, every request sent is followed by its check.  The
    iteration stops early only where it reads a JSON body that is not
    there: after the login request or after the product list.  A failed
    add-to-cart or create-order request does not stop it, and it sleeps
    exactly when it runs to its end. *)
Theorem iteration_progress (network : nat -> Request -> Reply) :
  let out := fst (iteration network idle) in
  let w := snd (iteration network idle) in
  List.length (checks w) = List.length (sent w)
  /\ match network 0 login_request with
     | RequestFailed =>
         sent w = [login_request] /\ slept w = [] /\ out <> Done tt
     | Received login =>
         let token := select login "token" in
         match network 1 (products_request token) with
         | RequestFailed =>
             sent w = [login_request; products_request token]
             /\ slept w = [] /\ out <> Done tt
         | Received products =>
             let productId := select products "items[0].id" in
             sent w = [login_request; products_request token;
                       cart_request token productId; order_request token]
             /\ slept w = [1%Z] /\ out = Done tt
         end
     end.
Proof.
  cbv zeta.
  unfold iteration, bind, http_post, http_get, http_request, check, json,
    sleep, ret, throw, idle.
  cbn [sent checks slept List.length app].
  fold login_request.
  destruct (network 0 login_request) as [login |];
    cbn [sent checks slept List.length app fst snd].
  - fold (auth_headers (select login "token")).
    fold (products_request (select login "token")).
    destruct (network 1 (products_request (select login "token")))
      as [products |];
      cbn [sent checks slept List.length app fst snd].
    + repeat split; reflexivity.
    + repeat split; intros H; discriminate H.
  - repeat split; intros H; discriminate H.
Qed.

End IterationFacts.

(** ** Repeated fetches *)

Section FetcherRepeats.
Import Fetcher.
Context {num : Type}.

(** X19: how fetches compose.  The message and the loading flag after a
    fetch depend on its reply alone, not on what the view held before; the
    order list is the reply's data after a success and the list held
    before after a failure.  So the same reply twice leaves the view that
    it leaves once, and a failure after a success keeps the fetched
    orders next to the error message. *)
Theorem fetchOrders_composes (r1 r2 : FetchOutcome num) (v : View num) :
  let v1 := view_after r1 v in
  let v2 := view_after r2 v1 in
  error v2 = error (view_after r2 v)
  /\ loading v2 = false
  /\ (failed r2 = true -> orders v2 = orders v1)
  /\ (failed r2 = false -> orders v2 = orders (view_after r2 v))
  /\ view_after r1 v1 = v1.
Proof.
  unfold view_after.
  destruct r2 as [[m2|] | [|] [[m2|] | | [[|] d2 m2]]];
    destruct r1 as [[m1|] | [|] [[m1|] | | [[|] d1 m1]]];
    cbn; repeat split; intros H; try reflexivity; discriminate H.
Qed.

End FetcherRepeats.

(** X13, witness: one week in March for the channel Trendyol. *)
Lemma report_query_iso_sample :
  URLSearchParams_toString
    (report_params {| f_startDate := "2024-03-09"; f_endDate := "2024-03-15";
                      f_channel := Some trendyol; f_status := None |})
  = ("dateFrom=" ++ "2024-03-09" ++ "&dateTo=" ++ "2024-03-15"
     ++ ("&channel=" ++ Channel_id trendyol) ++ EmptyString)%string.
Proof.
  exact (@report_query_iso "2024-03-09" "2024-03-15" (Some trendyol) None
           eq_refl eq_refl).
Defined.
